(** * Auto-ingress operator: a shallow embedding of [operator.py]

    The operator watches Kubernetes Services and derives one Ingress per
    annotated Service.  This development embeds the five functions of
    [src/operator/operator.py] and proves (or refutes) the properties the
    design document states about them.

    Layout:
    - Python values, dictionaries and exceptions;
    - the Kubernetes client objects the code builds ([V1Ingress] and parts);
    - the pure functions [build_ingress_name], [find_http_port],
      [create_ingress_object];
    - the handler monad [kopf] (API calls, posted events, exceptions) and
      the handlers [manage_ingress], [cleanup_ingress];
    - running a handler against an arbitrary cluster gateway;
    - the theorems. *)

From stdpp Require Import gmap strings list pretty.
From Stdlib Require Import ZArith.

Open Scope Z_scope.
Open Scope string_scope.

(** ** Python values *)

(** The scalars that occur in a Service port mapping and in the fields the
    code copies out of it. *)
Inductive pyval : Type :=
| PNone
| PInt (z : Z)
| PStr (s : string).

#[global] Instance pyval_eq_dec : EqDecision pyval.
Proof. solve_decision. Defined.

(** Python truthiness of a scalar: [None], [0] and the empty string are
    false. *)
Definition truthy (v : pyval) : bool :=
  match v with
  | PNone => false
  | PInt z => negb (Z.eqb z 0)
  | PStr s => negb (String.eqb s "")
  end.


(** [str(v)], which is also what an f-string placeholder renders. *)
Definition py_str (v : pyval) : string :=
  match v with
  | PNone => "None"
  | PInt z => pretty z
  | PStr s => s
  end.

(** [v == "http"] and the like: values of different types are unequal. *)
Definition py_eqb (a b : pyval) : bool := bool_decide (a = b).

(** [s.startswith(p)]. *)
Fixpoint startswith (s p : string) {struct p} : bool :=
  match p with
  | EmptyString => true
  | String a p' =>
      match s with
      | EmptyString => false
      | String b s' => if Ascii.eqb a b then startswith s' p' else false
      end
  end.

(** A port of a Service, as the raw mapping the event delivers:
    keys such as ["name"], ["port"], ["targetPort"]. A key the Service
    leaves unset is absent from the mapping. *)
Abbreviation port := (gmap string pyval).

(** A value stored in the Service spec: the port list under ["ports"], or
    some scalar. *)
Inductive specval : Type :=
| SPorts (ports : list port)
| SOther (v : pyval).

(** ** Exceptions *)

(** [kubernetes.client.rest.ApiException]: the HTTP status and the text
    [str(e)] renders. *)
Module ApiException.
Record t : Type := { status : Z; text : string }.
End ApiException.

Inductive exn : Type :=
| ApiError (e : ApiException.t)
| TemporaryError (msg : string) (delay : Z)   (* kopf.TemporaryError *)
| KeyError (key : string)
| IndexError
| TypeError
| AttributeError.

(** The outcome of a Python call: a value, or a raised exception. *)
Inductive result (A : Type) : Type :=
| Normal (a : A)
| Raised (e : exn).
Arguments Normal {A} a.
Arguments Raised {A} e.

Definition rbind {A B} (r : result A) (f : A -> result B) : result B :=
  match r with
  | Normal a => f a
  | Raised e => Raised e
  end.

(** [d[key]]. *)
Definition getitem {V} (d : gmap string V) (key : string) : result V :=
  match d !! key with
  | Some v => Normal v
  | None => Raised (KeyError key)
  end.

(** ** Kubernetes client objects *)

Module V1OwnerReference.
Record t : Type := {
  api_version : string;
  kind : string;
  name : string;
  uid : string;
  controller : bool;
  block_owner_deletion : bool
}.
Definition set_uid (o : t) (u : string) : t :=
  {| api_version := api_version o; kind := kind o; name := name o;
     uid := u; controller := controller o;
     block_owner_deletion := block_owner_deletion o |}.
End V1OwnerReference.

Module V1ObjectMeta.
Record t : Type := {
  name : string;
  namespace : string;
  annotations : gmap string string;
  owner_references : list V1OwnerReference.t
}.
End V1ObjectMeta.

Module V1ServiceBackendPort.
Record t : Type := { number : pyval }.
End V1ServiceBackendPort.

Module V1IngressServiceBackend.
Record t : Type := { name : string; port : V1ServiceBackendPort.t }.
End V1IngressServiceBackend.

Module V1IngressBackend.
Record t : Type := { service : V1IngressServiceBackend.t }.
End V1IngressBackend.

Module V1HTTPIngressPath.
Record t : Type := {
  path : string;
  path_type : string;
  backend : V1IngressBackend.t
}.
End V1HTTPIngressPath.

Module V1HTTPIngressRuleValue.
Record t : Type := { paths : list V1HTTPIngressPath.t }.
End V1HTTPIngressRuleValue.

Module V1IngressRule.
Record t : Type := { http : V1HTTPIngressRuleValue.t }.
End V1IngressRule.

Module V1IngressSpec.
Record t : Type := { rules : list V1IngressRule.t }.
End V1IngressSpec.

Module V1Ingress.
Record t : Type := { metadata : V1ObjectMeta.t; spec : V1IngressSpec.t }.
End V1Ingress.

Module V1Service.
(** [V1Service(spec=spec)] with the raw spec mapping of the event. *)
Record t : Type := { spec : gmap string specval }.
End V1Service.

(** ** Constants *)

Definition INGRESS_CLASS_ANNOTATION : string :=
  "traefik.ingress.kubernetes.io/router.entrypoints".
Definition INGRESS_CLASS_VALUE : string := "web".
Definition AUTO_INGRESS_ANNOTATION : string := "auto-ingress".

(** ** Pure functions *)

(** [f"auto-ingress-{service_name}-{port_name}"]. *)
Definition build_ingress_name (service_name : string) (port_name : pyval)
  : string :=
  "auto-ingress-" +:+ service_name +:+ "-" +:+ py_str port_name.

(** The loop of [find_http_port]: [Normal (Some p)] when the loop returns
    [p], [Normal None] when it runs to its end. *)
Fixpoint find_http_port_loop (ports : list port) : result (option port) :=
  match ports with
  | [] => Normal None
  | p :: rest =>
      rbind (getitem p "name") (fun n =>
        if py_eqb n (PStr "http") then Normal (Some p)
        else find_http_port_loop rest)
  end.

(** [ports[0] if ports else None]. *)
Definition first_or_none (ports : list port) : option port := head ports.

Definition find_http_port (service : V1Service.t) : result (option port) :=
  rbind (getitem (V1Service.spec service) "ports") (fun ports =>
    match ports with
    | SPorts ports =>
        rbind (find_http_port_loop ports) (fun found =>
          match found with
          | Some p => Normal (Some p)
          | None => Normal (first_or_none ports)
          end)
    | SOther (PStr EmptyString) => Normal None
    | SOther _ => Raised TypeError
    end).


(** [a or b]: [b] is evaluated, and may raise, only when [a] is falsy. *)
Definition py_or (a : pyval) (b : result pyval) : result pyval :=
  if truthy a then Normal a else b.

Definition create_ingress_object
    (namespace service_name path : string) (port : port)
  : result V1Ingress.t :=
  rbind (getitem port "name") (fun n =>
  rbind (py_or n (rbind (getitem port "port") (fun p =>
                    Normal (PStr (py_str p))))) (fun port_name =>
  let ingress_name := build_ingress_name service_name port_name in
  rbind (getitem port "targetPort") (fun tp =>
  rbind (py_or tp (getitem port "port")) (fun number =>
  Normal
    {| V1Ingress.metadata :=
         {| V1ObjectMeta.name := ingress_name;
            V1ObjectMeta.namespace := namespace;
            V1ObjectMeta.annotations :=
              {[ INGRESS_CLASS_ANNOTATION := INGRESS_CLASS_VALUE ]};
            V1ObjectMeta.owner_references :=
              [ {| V1OwnerReference.api_version := "v1";
                   V1OwnerReference.kind := "Service";
                   V1OwnerReference.name := service_name;
                   V1OwnerReference.uid := "";
                   V1OwnerReference.controller := true;
                   V1OwnerReference.block_owner_deletion := true |} ] |};
       V1Ingress.spec :=
         {| V1IngressSpec.rules :=
              [ {| V1IngressRule.http :=
                     {| V1HTTPIngressRuleValue.paths :=
                          [ {| V1HTTPIngressPath.path := path;
                               V1HTTPIngressPath.path_type := "Prefix";
                               V1HTTPIngressPath.backend :=
                                 {| V1IngressBackend.service :=
                                      {| V1IngressServiceBackend.name :=
                                           service_name;
                                         V1IngressServiceBackend.port :=
                                           {| V1ServiceBackendPort.number :=
                                                number |} |} |} |} ] |} |} ]
         |} |})))).

(** [ingress_obj.metadata.owner_references[0].uid = uid]. *)
Definition set_owner_uid (ingress_obj : V1Ingress.t) (uid : string)
  : result V1Ingress.t :=
  let m := V1Ingress.metadata ingress_obj in
  match V1ObjectMeta.owner_references m with
  | [] => Raised IndexError
  | o :: rest =>
      Normal
        {| V1Ingress.metadata :=
             {| V1ObjectMeta.name := V1ObjectMeta.name m;
                V1ObjectMeta.namespace := V1ObjectMeta.namespace m;
                V1ObjectMeta.annotations := V1ObjectMeta.annotations m;
                V1ObjectMeta.owner_references :=
                  V1OwnerReference.set_uid o uid :: rest |};
           V1Ingress.spec := V1Ingress.spec ingress_obj |}
  end.

(** ** The handler monad *)

(** The calls the handlers make on [NetworkingV1Api]. *)
Inductive api_call : Type :=
| list_namespaced_ingress (namespace : string)
| create_namespaced_ingress (namespace : string) (body : V1Ingress.t)
| patch_namespaced_ingress (name namespace : string) (body : V1Ingress.t)
| delete_namespaced_ingress (name namespace : string).

(** What a successful call gives back: [list_namespaced_ingress] the
    [.items] of the returned list; the handlers ignore what the three
    mutating calls return. *)
Definition returns (c : api_call) : Type :=
  match c with
  | list_namespaced_ingress _ => list V1Ingress.t
  | _ => unit
  end.

(** What [kopf.info] is handed as its first argument: the [meta] of the
    Service under reconciliation, which is a mapping, or the metadata of a
    listed Ingress, which is a client [V1ObjectMeta] object. *)
Abbreviation Meta := (gmap string pyval).

Inductive info_target : Type :=
| OfService (meta : Meta)
| OfIngress (metadata : V1ObjectMeta.t).

(** A handler is a tree: it returns, raises, posts an event, prints, or
    makes an API call and continues with the reply, which is either the
    value of the call or the [ApiException] it raised. *)
Inductive kopf (A : Type) : Type :=
| Return (a : A)
| Raise (e : exn)
| Call (c : api_call) (k : ApiException.t + returns c -> kopf A)
| Info (target : info_target) (reason message : string) (k : kopf A)
| Print (line : string) (k : kopf A).
Arguments Return {A} a.
Arguments Raise {A} e.
Arguments Call {A} c k.
Arguments Info {A} target reason message k.
Arguments Print {A} line k.

Fixpoint kbind {A B} (p : kopf A) (f : A -> kopf B) : kopf B :=
  match p with
  | Return a => f a
  | Raise e => Raise e
  | Call c k => Call c (fun r => kbind (k r) f)
  | Info t r m k => Info t r m (kbind k f)
  | Print l k => Print l (kbind k f)
  end.

#[global] Instance kopf_ret : MRet kopf := fun A a => Return a.
#[global] Instance kopf_bind : MBind kopf := fun A B f p => kbind p f.

(** A pure computation inside a handler. *)
Definition lift {A} (r : result A) : kopf A :=
  match r with
  | Normal a => Return a
  | Raised e => Raise e
  end.

(** [api.<call>(...)]: the value, or the [ApiException] raised. A call
    that fails in another way (the server cannot be reached and the
    transport gives up) is outside this model: what is proved about a
    failing call is proved about a call that raises [ApiException]. *)
Definition api (c : api_call) : kopf (returns c) :=
  Call c (fun r =>
    match r with
    | inl e => Raise (ApiError e)
    | inr x => Return x
    end).

(** [kopf.info(target, reason=..., message=...)]. kopf reads the object
    to attach the event to out of [target] as a mapping. Handed the [meta]
    of the event it posts the event. Handed a client [V1ObjectMeta], which
    is no mapping, it raises [AttributeError] and posts nothing. *)
Definition info (target : info_target) (reason message : string)
  : kopf unit :=
  match target with
  | OfService _ => Info target reason message (Return tt)
  | OfIngress _ => Raise AttributeError
  end.

Definition print (line : string) : kopf unit := Print line (Return tt).

(** [try: body  except ApiException as e: handler(e)].  Other exceptions
    pass through. *)
Fixpoint try_except {A} (body : kopf A) (handler : ApiException.t -> kopf A)
  : kopf A :=
  match body with
  | Return a => Return a
  | Raise (ApiError e) => handler e
  | Raise e => Raise e
  | Call c k => Call c (fun r => try_except (k r) handler)
  | Info t r m k => Info t r m (try_except k handler)
  | Print l k => Print l (try_except k handler)
  end.

(** [for x in xs: body(x)]. *)
Fixpoint for_each {X} (xs : list X) (body : X -> kopf unit) : kopf unit :=
  match xs with
  | [] => Return tt
  | x :: rest => body x ;; for_each rest body
  end.

(** ** The handlers *)

Definition ingress_name (ing : V1Ingress.t) : string :=
  V1ObjectMeta.name (V1Ingress.metadata ing).

(** The test [if not port] on what [find_http_port] returned: [None] and
    the empty mapping are falsy; a truthy port is handed on. *)
Definition truthy_port (p : option port) : option port :=
  match p with
  | None => None
  | Some d => if bool_decide (d = ∅) then None else Some d
  end.

Definition manage_ingress
    (spec : gmap string specval) (meta : Meta) (status : gmap string pyval)
    (name namespace uid : string) (annotations : option (gmap string string))
  : kopf unit :=
  let ingress_name_prefix := "auto-ingress-" +:+ name in
  if negb (bool_decide
             (is_Some (default ∅ annotations !! AUTO_INGRESS_ANNOTATION)))
  then
    try_except
      (ingresses ← api (list_namespaced_ingress namespace);
       for_each ingresses (fun ing =>
         if startswith (ingress_name ing) ingress_name_prefix then
           api (delete_namespaced_ingress (ingress_name ing) namespace);;
           info (OfService meta) "IngressDeleted"
                ("Deleted " +:+ ingress_name ing)
         else Return tt))
      (fun e =>
         Raise (TemporaryError
                  ("Failed to list/delete ingress: "
                   +:+ ApiException.text e) 10))
  else
    path ← lift (getitem (default ∅ annotations) AUTO_INGRESS_ANNOTATION);
    port ← lift (find_http_port {| V1Service.spec := spec |});
    match truthy_port port with
    | None => Raise (TemporaryError "No ports found on service" 10)
    | Some port =>
      ingress_obj ← lift (create_ingress_object namespace name path port);
      ingress_obj ← lift (set_owner_uid ingress_obj uid);
      let ingress_name := ingress_name ingress_obj in
      try_except
        (api (create_namespaced_ingress namespace ingress_obj);;
         info (OfService meta) "IngressCreated"
              ("Created ingress " +:+ ingress_name))
        (fun e =>
           if Z.eqb (ApiException.status e) 409 then
             api (patch_namespaced_ingress ingress_name namespace
                    ingress_obj);;
             info (OfService meta) "IngressPatched"
                  ("Updated ingress " +:+ ingress_name)
           else
             Raise (TemporaryError
                      ("Failed to create/patch ingress: "
                       +:+ ApiException.text e) 10))
    end.

Definition cleanup_ingress (name namespace : string) : kopf unit :=
  print ("Cleaning up ingress for service " +:+ name +:+ " in namespace "
         +:+ namespace +:+ "!!!!!!!!!!!!!!!!!!");;
  let ingress_name_prefix := "auto-ingress-" +:+ name in
  ingresses ← api (list_namespaced_ingress namespace);
  for_each ingresses (fun ing =>
    if startswith (ingress_name ing) ingress_name_prefix then
      api (delete_namespaced_ingress (ingress_name ing) namespace);;
      info (OfIngress (V1Ingress.metadata ing)) "IngressDeleted"
           ("Deleted ingress " +:+ ingress_name ing)
    else Return tt).

(** ** Running a handler against a cluster *)

(** What an observer of one handler run sees, in order: each API call
    with the exception it raised, if any; each posted event; each printed
    line. *)
Inductive observed : Type :=
| Called (c : api_call) (failed : option ApiException.t)
| Posted (target : info_target) (reason message : string)
| Printed (line : string).

Definition failure {X} (r : ApiException.t + X) : option ApiException.t :=
  match r with
  | inl e => Some e
  | inr _ => None
  end.

(** A cluster gateway answers every call from its current state. *)
Abbreviation gateway S :=
  (forall c : api_call, S -> (ApiException.t + returns c) * S).

Fixpoint run {S A} (gw : gateway S) (p : kopf A) (s : S)
  : result A * S * list observed :=
  match p with
  | Return a => (Normal a, s, [])
  | Raise e => (Raised e, s, [])
  | Call c k =>
      let '(r, s1) := gw c s in
      let '(o, s2, t) := run gw (k r) s1 in
      (o, s2, Called c (failure r) :: t)
  | Info tg rs m k =>
      let '(o, s1, t) := run gw k s in (o, s1, Posted tg rs m :: t)
  | Print l k =>
      let '(o, s1, t) := run gw k s in (o, s1, Printed l :: t)
  end.

Definition outcome {S A} (x : result A * S * list observed) : result A :=
  fst (fst x).
Definition final {S A} (x : result A * S * list observed) : S :=
  snd (fst x).
Definition trace {S A} (x : result A * S * list observed) : list observed :=
  snd x.

(** The API calls of a trace, and those that mutate the cluster. *)
Definition call_of (o : observed) : option api_call :=
  match o with
  | Called c _ => Some c
  | _ => None
  end.

Definition calls (t : list observed) : list api_call := omap call_of t.

Definition is_mutation (c : api_call) : bool :=
  match c with
  | list_namespaced_ingress _ => false
  | _ => true
  end.

Definition mutations (t : list observed) : list api_call :=
  filter (fun c => is_mutation c = true) (calls t).

(** The names a trace asked the cluster to delete, with their namespace. *)
Definition deletion_of (c : api_call) : option (string * string) :=
  match c with
  | delete_namespaced_ingress n ns => Some (n, ns)
  | _ => None
  end.

Definition deletions (t : list observed) : list (string * string) :=
  omap deletion_of (calls t).

(** The Ingress objects a trace submitted, by create or by patch. *)
Definition submission_of (c : api_call) : option V1Ingress.t :=
  match c with
  | create_namespaced_ingress _ body => Some body
  | patch_namespaced_ingress _ _ body => Some body
  | _ => None
  end.

Definition submissions (t : list observed) : list V1Ingress.t :=
  omap submission_of (calls t).

(** The exceptions the delete calls of a trace raised. *)
Definition delete_failure_of (o : observed) : option ApiException.t :=
  match o with
  | Called (delete_namespaced_ingress _ _) (Some e) => Some e
  | _ => None
  end.

Definition delete_failures (t : list observed) : list ApiException.t :=
  omap delete_failure_of t.

(** The events a trace posted: reason and message. *)
Definition event_of (o : observed) : option (string * string) :=
  match o with
  | Posted _ reason message => Some (reason, message)
  | _ => None
  end.

Definition events (t : list observed) : list (string * string) :=
  omap event_of t.

(** The family of a Service among listed ingresses: those the handlers'
    filter selects. *)
Definition family (name : string) (ingresses : list V1Ingress.t)
  : list V1Ingress.t :=
  filter (fun ing =>
            startswith (ingress_name ing) ("auto-ingress-" +:+ name) = true)
         ingresses.

(** ** The deletion loop *)

(** The loop that [manage_ingress] (annotation absent) and
    [cleanup_ingress] both run over the listed ingresses; the two differ
    in what they hand [kopf.info] as target, and in the message. *)
Definition delete_family (prefix namespace : string)
    (target : V1Ingress.t -> info_target) (message : string -> string)
    (ingresses : list V1Ingress.t) : kopf unit :=
  for_each ingresses (fun ing =>
    if startswith (ingress_name ing) prefix then
      api (delete_namespaced_ingress (ingress_name ing) namespace);;
      info (target ing) "IngressDeleted" (message (ingress_name ing))
    else Return tt).

(** The delete call for a name and namespace. *)
Definition delete_call (k : string * string) : api_call :=
  delete_namespaced_ingress k.1 k.2.

(** ** A reference cluster *)

(** An in-memory gateway used to run the handlers on concrete inputs.  It
    keeps the Ingress objects of all namespaces, answers a create of an
    existing name with 409 and a patch or delete of a missing name with
    404, and can be told to fail chosen calls. *)
Module Cluster.

Definition store : Type := list (string * V1Ingress.t).

Definition holds (namespace name : string) (e : string * V1Ingress.t)
  : bool :=
  String.eqb (fst e) namespace && String.eqb (ingress_name (snd e)) name.

Definition conflict : ApiException.t :=
  {| ApiException.status := 409; ApiException.text := "Conflict" |}.
Definition not_found : ApiException.t :=
  {| ApiException.status := 404; ApiException.text := "Not Found" |}.
Definition unavailable : ApiException.t :=
  {| ApiException.status := 503;
     ApiException.text := "Service Unavailable" |}.

Definition step : gateway store := fun c s =>
  match c return (ApiException.t + returns c) * store with
  | list_namespaced_ingress ns =>
      (inr (map snd (List.filter (fun e => String.eqb (fst e) ns) s)), s)
  | create_namespaced_ingress ns body =>
      if existsb (holds ns (ingress_name body)) s
      then (inl conflict, s)
      else (inr tt, (s ++ [(ns, body)])%list)
  | patch_namespaced_ingress n ns body =>
      if existsb (holds ns n) s
      then (inr tt, map (fun e => if holds ns n e then (ns, body) else e) s)
      else (inl not_found, s)
  | delete_namespaced_ingress n ns =>
      if existsb (holds ns n) s
      then (inr tt, List.filter (fun e => negb (holds ns n e)) s)
      else (inl not_found, s)
  end.

(** The cluster with faults: a call [fault] selects raises the given
    exception and leaves the store alone. *)
Definition faulty (fault : api_call -> option ApiException.t)
  : gateway store := fun c s =>
  match fault c with
  | Some e => (inl e, s)
  | None => step c s
  end.

End Cluster.

(** ** Sample inputs *)

(** A bare Ingress object with the given name. *)
Definition ingress_named (namespace name : string) : V1Ingress.t :=
  {| V1Ingress.metadata :=
       {| V1ObjectMeta.name := name;
          V1ObjectMeta.namespace := namespace;
          V1ObjectMeta.annotations := ∅;
          V1ObjectMeta.owner_references := [] |};
     V1Ingress.spec := {| V1IngressSpec.rules := [] |} |}.

(** The Service [web] of the end-to-end scenario. *)
Definition web_port : port :=
  {[ "name" := PStr "http"; "port" := PInt 80; "targetPort" := PInt 8080 ]}.
Definition web_spec : gmap string specval :=
  {[ "ports" := SPorts [web_port] ]}.
Definition web_annotations : option (gmap string string) :=
  Some {[ AUTO_INGRESS_ANNOTATION := "/app" ]}.

(** The Ingress the scenario expects for [web], owned by [uid]. *)
Definition web_ingress (uid : string) : V1Ingress.t :=
  {| V1Ingress.metadata :=
       {| V1ObjectMeta.name := "auto-ingress-web-http";
          V1ObjectMeta.namespace := "ns1";
          V1ObjectMeta.annotations :=
            {[ INGRESS_CLASS_ANNOTATION := INGRESS_CLASS_VALUE ]};
          V1ObjectMeta.owner_references :=
            [ {| V1OwnerReference.api_version := "v1";
                 V1OwnerReference.kind := "Service";
                 V1OwnerReference.name := "web";
                 V1OwnerReference.uid := uid;
                 V1OwnerReference.controller := true;
                 V1OwnerReference.block_owner_deletion := true |} ] |};
     V1Ingress.spec :=
       {| V1IngressSpec.rules :=
            [ {| V1IngressRule.http :=
                   {| V1HTTPIngressRuleValue.paths :=
                        [ {| V1HTTPIngressPath.path := "/app";
                             V1HTTPIngressPath.path_type := "Prefix";
                             V1HTTPIngressPath.backend :=
                               {| V1IngressBackend.service :=
                                    {| V1IngressServiceBackend.name := "web";
                                       V1IngressServiceBackend.port :=
                                         {| V1ServiceBackendPort.number :=
                                              PInt 8080 |} |} |} |} ] |} |} ]
       |} |}.

(** A cluster holding the Ingress of [web], a hand-made Ingress in the
    same namespace, and a namesake in another namespace. *)
Definition sample_store : Cluster.store :=
  [ ("ns1", web_ingress "u1");
    ("ns1", ingress_named "ns1" "manual");
    ("ns2", ingress_named "ns2" "auto-ingress-web-http") ].


(** The cluster is reachable for everything but patches. *)
Definition patch_down (c : api_call) : option ApiException.t :=
  match c with
  | patch_namespaced_ingress _ _ _ => Some Cluster.unavailable
  | _ => None
  end.

(** The cluster cannot list. *)
Definition list_down (c : api_call) : option ApiException.t :=
  match c with
  | list_namespaced_ingress _ => Some Cluster.unavailable
  | _ => None
  end.

(** The cluster cannot delete. *)
Definition delete_down (c : api_call) : option ApiException.t :=
  match c with
  | delete_namespaced_ingress _ _ => Some Cluster.unavailable
  | _ => None
  end.

(** The owner reference the design asks for: the Service [name] with its
    [uid], as controller, blocking owner deletion. *)
Definition owned_by (name uid : string) : V1OwnerReference.t :=
  {| V1OwnerReference.api_version := "v1";
     V1OwnerReference.kind := "Service";
     V1OwnerReference.name := name;
     V1OwnerReference.uid := uid;
     V1OwnerReference.controller := true;
     V1OwnerReference.block_owner_deletion := true |}.

(** The last step of [manage_ingress], the [try]/[except] around the
    create call, for the object [ingress_obj] it has built. *)
Definition upsert (meta : Meta) (namespace : string)
    (ingress_obj : V1Ingress.t) : kopf unit :=
  try_except
    (api (create_namespaced_ingress namespace ingress_obj);;
     info (OfService meta) "IngressCreated"
          ("Created ingress " +:+ ingress_name ingress_obj))
    (fun e =>
       if Z.eqb (ApiException.status e) 409 then
         api (patch_namespaced_ingress (ingress_name ingress_obj) namespace
                ingress_obj);;
         info (OfService meta) "IngressPatched"
              ("Updated ingress " +:+ ingress_name ingress_obj)
       else
         Raise (TemporaryError
                  ("Failed to create/patch ingress: "
                   +:+ ApiException.text e) 10)).

(** A Service with one unnamed port, as the API server delivers it: the
    port mapping has no ["name"] key. *)
Definition unnamed_port : port :=
  {[ "port" := PInt 80; "targetPort" := PInt 8080 ]}.
Definition unnamed_service : V1Service.t :=
  {| V1Service.spec := {[ "ports" := SPorts [unnamed_port] ]} |}.

(** A port before which the scan of [find_http_port] has not returned:
    it carries a name, and the name is not ["http"]. *)
Definition passed_over (q : port) : Prop :=
  exists v, q !! "name" = Some v /\ v <> PStr "http".

(** The scan of [find_http_port] reaches a port without a ["name"] key. *)
Definition scan_hits_unnamed (ports : list port) : Prop :=
  exists pre p post,
    ports = (pre ++ p :: post)%list /\ p !! "name" = None /\
    Forall passed_over pre.

(** Two named ports, the second one named ["http"]. *)
Definition metrics_port : port :=
  {[ "name" := PStr "metrics"; "port" := PInt 9090 ]}.
Definition http_port : port :=
  {[ "name" := PStr "http"; "port" := PInt 8080 ]}.

(** A port without a name whose targetPort is a named container port. *)
Definition anonymous_port : port :=
  {[ "name" := PNone; "port" := PInt 80; "targetPort" := PStr "web-ui" ]}.

(** A port as a Service manifest may give it: named, with a port number,
    without a targetPort. *)
Definition no_target_port : port :=
  {[ "name" := PStr "http"; "port" := PInt 80 ]}.

(** The calls of a trace that raised, with what they raised. *)
Definition failed_call_of (o : observed)
  : option (api_call * ApiException.t) :=
  match o with
  | Called c (Some e) => Some (c, e)
  | _ => None
  end.

Definition failed_calls (t : list observed)
  : list (api_call * ApiException.t) :=
  omap failed_call_of t.

(** Every create is refused with 403. *)
Definition forbidden : ApiException.t :=
  {| ApiException.status := 403; ApiException.text := "Forbidden" |}.
Definition create_forbidden (c : api_call) : option ApiException.t :=
  match c with
  | create_namespaced_ingress _ _ => Some forbidden
  | _ => None
  end.

(** The names a trace deleted: the delete calls that did not raise. *)
Definition successful_deletion_of (o : observed)
  : option (string * string) :=
  match o with
  | Called (delete_namespaced_ingress n ns) None => Some (n, ns)
  | _ => None
  end.

Definition successful_deletions (t : list observed)
  : list (string * string) :=
  omap successful_deletion_of t.

(** A cluster holding two ingresses of the family of [web]. *)
Definition two_member_store : Cluster.store :=
  [ ("ns1", web_ingress "u1");
    ("ns1", ingress_named "ns1" "auto-ingress-web-metrics") ].

(** * Properties *)

(** ** Strings *)

Lemma startswith_app (p s : string) : startswith (p +:+ s) p = true.
Proof.
  induction p as [|a p IH]; simpl; [reflexivity|].
  rewrite Ascii.eqb_refl. exact IH.
Qed.

Lemma startswith_app_inv (a s p : string) :
  startswith (a +:+ s) (a +:+ p) = startswith s p.
Proof.
  induction a as [|c a IH]; simpl; [reflexivity|].
  rewrite Ascii.eqb_refl. exact IH.
Qed.

(** Every generated name lies in the family of its own Service. *)
Lemma build_ingress_name_in_family (service_name : string) (pn : pyval) :
  startswith (build_ingress_name service_name pn)
             ("auto-ingress-" +:+ service_name) = true.
Proof.
  unfold build_ingress_name.
  rewrite startswith_app_inv.
  apply startswith_app.
Qed.

(** ** Running composite handlers *)

Section RunLemmas.
Context {S : Type} (gw : gateway S).

Lemma run_bind {A B} (p : kopf A) (f : A -> kopf B) (s : S) :
  run gw (p ≫= f) s =
  match run gw p s with
  | (Normal a, s1, t1) =>
      let '(o, s2, t2) := run gw (f a) s1 in (o, s2, (t1 ++ t2)%list)
  | (Raised e, s1, t1) => (Raised e, s1, t1)
  end.
Proof.
  unfold mbind, kopf_bind. revert s.
  induction p as [a|e|c k IH|tg rs m k IH|l k IH]; intros s; simpl.
  - destruct (run gw (f a) s) as [[o s2] t2]. reflexivity.
  - reflexivity.
  - destruct (gw c s) as [r s1]. rewrite IH.
    destruct (run gw (k r) s1) as [[[a|e] s2] t1]; [|reflexivity].
    destruct (run gw (f a) s2) as [[o s3] t2]. reflexivity.
  - rewrite IH.
    destruct (run gw k s) as [[[a|e] s2] t1]; [|reflexivity].
    destruct (run gw (f a) s2) as [[o s3] t2]. reflexivity.
  - rewrite IH.
    destruct (run gw k s) as [[[a|e] s2] t1]; [|reflexivity].
    destruct (run gw (f a) s2) as [[o s3] t2]. reflexivity.
Qed.

Lemma run_try_except {A} (p : kopf A) (h : ApiException.t -> kopf A)
    (s : S) :
  run gw (try_except p h) s =
  match run gw p s with
  | (Raised (ApiError e), s1, t1) =>
      let '(o, s2, t2) := run gw (h e) s1 in (o, s2, (t1 ++ t2)%list)
  | x => x
  end.
Proof.
  revert s.
  induction p as [a|e|c k IH|tg rs m k IH|l k IH]; intros s; simpl.
  - reflexivity.
  - destruct e as [e| | | | |]; try reflexivity.
    destruct (run gw (h e) s) as [[o s2] t2]. reflexivity.
  - destruct (gw c s) as [r s1]. rewrite IH.
    destruct (run gw (k r) s1) as [[[a|[e| | | | |]] s2] t1]; try reflexivity.
    destruct (run gw (h e) s2) as [[o s3] t2]. reflexivity.
  - rewrite IH.
    destruct (run gw k s) as [[[a|[e| | | | |]] s2] t1]; try reflexivity.
    destruct (run gw (h e) s2) as [[o s3] t2]. reflexivity.
  - rewrite IH.
    destruct (run gw k s) as [[[a|[e| | | | |]] s2] t1]; try reflexivity.
    destruct (run gw (h e) s2) as [[o s3] t2]. reflexivity.
Qed.

Lemma run_lift {A} (r : result A) (s : S) : run gw (lift r) s = (r, s, []).
Proof. destruct r; reflexivity. Qed.

Lemma run_api (c : api_call) (s : S) :
  run gw (api c) s =
  match gw c s with
  | (inl e, s1) => (Raised (ApiError e), s1, [Called c (Some e)])
  | (inr x, s1) => (Normal x, s1, [Called c None])
  end.
Proof. simpl. destruct (gw c s) as [[e|x] s1]; reflexivity. Qed.

Lemma run_list (ns : string) (s : S) :
  run (A := list V1Ingress.t) gw (api (list_namespaced_ingress ns)) s =
  match gw (list_namespaced_ingress ns) s with
  | (inl e, s1) =>
      (Raised (ApiError e), s1, [Called (list_namespaced_ingress ns) (Some e)])
  | (inr x, s1) => (Normal x, s1, [Called (list_namespaced_ingress ns) None])
  end.
Proof. exact (run_api (list_namespaced_ingress ns) s). Qed.

End RunLemmas.

(** ** Reading traces *)

Lemma calls_called c f t : calls (Called c f :: t) = c :: calls t.
Proof. reflexivity. Qed.
Lemma calls_posted tg r m t : calls (Posted tg r m :: t) = calls t.
Proof. reflexivity. Qed.
Lemma calls_printed l t : calls (Printed l :: t) = calls t.
Proof. reflexivity. Qed.
Lemma calls_app t1 t2 : calls (t1 ++ t2)%list = (calls t1 ++ calls t2)%list.
Proof. apply omap_app. Qed.

Lemma deletions_delete n ns f t :
  deletions (Called (delete_namespaced_ingress n ns) f :: t)
  = (n, ns) :: deletions t.
Proof. reflexivity. Qed.
Lemma deletions_list ns f t :
  deletions (Called (list_namespaced_ingress ns) f :: t) = deletions t.
Proof. reflexivity. Qed.
Lemma deletions_posted tg r m t : deletions (Posted tg r m :: t) = deletions t.
Proof. reflexivity. Qed.
Lemma deletions_printed l t : deletions (Printed l :: t) = deletions t.
Proof. reflexivity. Qed.

Lemma delete_failures_ok c t :
  delete_failures (Called c None :: t) = delete_failures t.
Proof. destruct c; reflexivity. Qed.
Lemma delete_failures_list ns f t :
  delete_failures (Called (list_namespaced_ingress ns) f :: t)
  = delete_failures t.
Proof. destruct f; reflexivity. Qed.
Lemma delete_failures_posted tg r m t :
  delete_failures (Posted tg r m :: t) = delete_failures t.
Proof. reflexivity. Qed.
Lemma delete_failures_printed l t :
  delete_failures (Printed l :: t) = delete_failures t.
Proof. reflexivity. Qed.

Lemma delete_failures_le (t : list observed) :
  (length (delete_failures t) <= length (deletions t))%nat.
Proof.
  induction t as [|o t IH]; [reflexivity|].
  destruct o as [c [e|]|tg r m|l]; try exact IH.
  - destruct c; try exact IH.
    change (S (length (delete_failures t)) <= S (length (deletions t)))%nat.
    lia.
  - destruct c; try exact IH.
    change (length (delete_failures t) <= S (length (deletions t)))%nat.
    lia.
Qed.

Lemma submissions_deletes (ks : list (string * string)) :
  omap submission_of (map delete_call ks) = [].
Proof. induction ks as [|k ks IH]; [reflexivity|exact IH]. Qed.

(** ** The deletion pass *)

Section DeletionPass.
Context {S : Type} (gw : gateway S).
Variables (prefix namespace : string).
Variable meta : Meta.
Variable message : string -> string.

Local Abbreviation target := (fun _ : V1Ingress.t => OfService meta).
Local Abbreviation key := (fun ing : V1Ingress.t => (ingress_name ing, namespace)).
Local Abbreviation selected :=
  (filter (fun ing => startswith (ingress_name ing) prefix = true)).

Lemma delete_family_cons (ing : V1Ingress.t) (rest : list V1Ingress.t)
    (s : S) :
  run gw (delete_family prefix namespace target message (ing :: rest)) s =
  if startswith (ingress_name ing) prefix then
    let c := delete_namespaced_ingress (ingress_name ing) namespace in
    match gw c s with
    | (inl e, s1) => (Raised (ApiError e), s1, [Called c (Some e)])
    | (inr _, s1) =>
        let '(o, s2, t) :=
          run gw (delete_family prefix namespace target message rest) s1 in
        (o, s2,
         Called c None
         :: Posted (target ing) "IngressDeleted" (message (ingress_name ing))
         :: t)
    end
  else run gw (delete_family prefix namespace target message rest) s.
Proof.
  unfold delete_family. cbn [for_each].
  destruct (startswith (ingress_name ing) prefix).
  - unfold mbind, kopf_bind. simpl.
    destruct (gw _ s) as [[e|u] s1]; simpl; [reflexivity|].
    destruct (run gw _ s1) as [[o s2] t]. reflexivity.
  - unfold mbind, kopf_bind. simpl.
    destruct (run gw _ s) as [[o s2] t]. reflexivity.
Qed.

Lemma delete_family_run (ingresses : list V1Ingress.t) (s : S) :
  let x := run gw (delete_family prefix namespace target message ingresses) s
  in
  calls (trace x) = map delete_call (deletions (trace x)) /\
  ((outcome x = Normal tt /\ delete_failures (trace x) = [] /\
    deletions (trace x) = map key (selected ingresses))
   \/
   (exists e, outcome x = Raised (ApiError e) /\
              delete_failures (trace x) = [e] /\
              deletions (trace x) `prefix_of` map key (selected ingresses))).
Proof.
  revert s. induction ingresses as [|ing rest IH]; intros s.
  - simpl. split; [reflexivity|]. left. repeat split; reflexivity.
  - cbv zeta. rewrite delete_family_cons.
    rewrite filter_cons.
    destruct (startswith (ingress_name ing) prefix) eqn:Hp.
    + rewrite decide_True by reflexivity. cbv zeta.
      destruct (gw _ s) as [[e|u] s1].
      * split; [reflexivity|]. right. exists e.
        repeat split; try reflexivity.
        exists (map key (selected rest)). reflexivity.
      * specialize (IH s1). cbv zeta in IH.
        destruct (run gw _ s1) as [[o s2] t].
        unfold outcome, trace in *. cbn [fst snd] in *.
        rewrite calls_called, calls_posted, deletions_delete,
          deletions_posted, delete_failures_ok, delete_failures_posted.
        destruct IH as [Hc IH]. split.
        { rewrite Hc. reflexivity. }
        destruct IH as [(Ho & Hf & Hd)|(e & Ho & Hf & Hd)].
        -- left. repeat split; try assumption.
           rewrite Hd. reflexivity.
        -- right. exists e. repeat split; try assumption.
           apply prefix_cons. exact Hd.
    + rewrite decide_False by discriminate. apply IH.
Qed.

End DeletionPass.

(** The loop as [cleanup_ingress] runs it, with the metadata of the listed
    Ingress as event target: [kopf.info] raises after the first delete
    that succeeds, so the loop never gets past the first member of the
    family. *)
Section CleanupLoop.
Context {S : Type} (gw : gateway S).
Variables (prefix namespace : string).
Variable message : string -> string.

Lemma delete_family_of_ingress_run (ingresses : list V1Ingress.t) (s : S) :
  run gw (delete_family prefix namespace
            (fun ing => OfIngress (V1Ingress.metadata ing)) message
            ingresses) s =
  match filter (fun ing => startswith (ingress_name ing) prefix = true)
               ingresses with
  | [] => (Normal tt, s, [])
  | ing :: _ =>
      let d := delete_namespaced_ingress (ingress_name ing) namespace in
      match gw d s with
      | (inl e, s1) => (Raised (ApiError e), s1, [Called d (Some e)])
      | (inr _, s1) => (Raised AttributeError, s1, [Called d None])
      end
  end.
Proof.
  revert s. induction ingresses as [|ing rest IH]; intros s; [reflexivity|].
  rewrite filter_cons.
  destruct (startswith (ingress_name ing) prefix) eqn:Hp.
  - rewrite decide_True by reflexivity.
    unfold delete_family. cbn [for_each]. rewrite Hp.
    unfold mbind, kopf_bind, api, info. cbn [kbind run]. cbv zeta.
    destruct (gw _ s) as [[e|u] s1]; reflexivity.
  - rewrite decide_False by discriminate. rewrite <- IH.
    unfold delete_family. cbn [for_each]. rewrite Hp.
    unfold mbind, kopf_bind. cbn [kbind]. reflexivity.
Qed.

End CleanupLoop.

(** The two handlers in terms of the shared loop. *)
Section Handlers.
Context {S : Type} (gw : gateway S).
Variables (spec : gmap string specval) (meta : Meta)
          (status : gmap string pyval).
Variables (name namespace uid : string).
Variable annotations : option (gmap string string).

Local Abbreviation prefix := ("auto-ingress-" +:+ name).

Lemma manage_ingress_absent_run (s : S) :
  default ∅ annotations !! AUTO_INGRESS_ANNOTATION = None ->
  run gw (manage_ingress spec meta status name namespace uid annotations) s =
  let c := list_namespaced_ingress namespace in
  match gw c s with
  | (inl e, s1) =>
      (Raised (TemporaryError
                 ("Failed to list/delete ingress: " +:+ ApiException.text e)
                 10),
       s1, [Called c (Some e)])
  | (inr ingresses, s1) =>
      let '(o, s2, t) :=
        run gw (delete_family prefix namespace (fun _ => OfService meta)
                  (fun n => "Deleted " +:+ n) ingresses) s1 in
      (match o with
       | Raised (ApiError e) =>
           Raised (TemporaryError
                     ("Failed to list/delete ingress: "
                      +:+ ApiException.text e) 10)
       | _ => o
       end, s2, Called c None :: t)
  end.
Proof.
  intros Habsent. unfold manage_ingress. rewrite Habsent.
  rewrite bool_decide_false by (intros [? ?]; discriminate).
  cbn [negb]. rewrite run_try_except, run_bind, run_list. cbv zeta.
  destruct (gw _ s) as [[e|ingresses] s1]; [reflexivity|].
  unfold delete_family.
  destruct (run gw (for_each _ _) s1) as [[[[]|[e| | | | |]] s2] t];
    cbn; rewrite ?app_nil_r; reflexivity.
Qed.

Lemma cleanup_ingress_run (s : S) :
  run gw (cleanup_ingress name namespace) s =
  let c := list_namespaced_ingress namespace in
  let l := Printed ("Cleaning up ingress for service " +:+ name
                    +:+ " in namespace " +:+ namespace
                    +:+ "!!!!!!!!!!!!!!!!!!") in
  match gw c s with
  | (inl e, s1) => (Raised (ApiError e), s1, [l; Called c (Some e)])
  | (inr ingresses, s1) =>
      match family name ingresses with
      | [] => (Normal tt, s1, [l; Called c None])
      | ing :: _ =>
          let d := delete_namespaced_ingress (ingress_name ing) namespace in
          match gw d s1 with
          | (inl e, s2) =>
              (Raised (ApiError e), s2, [l; Called c None; Called d (Some e)])
          | (inr _, s2) =>
              (Raised AttributeError, s2, [l; Called c None; Called d None])
          end
      end
  end.
Proof.
  unfold cleanup_ingress. rewrite run_bind. unfold print. cbn [run].
  rewrite run_bind, run_list. cbv zeta.
  destruct (gw _ s) as [[e|ingresses] s1]; [reflexivity|].
  pose proof (delete_family_of_ingress_run gw prefix namespace
                (fun n => "Deleted ingress " +:+ n) ingresses s1) as H.
  unfold delete_family in H. rewrite H. clear H.
  change (filter _ ingresses) with (family name ingresses).
  destruct (family name ingresses) as [|ing rest]; [reflexivity|].
  cbv zeta. destruct (gw _ s1) as [[e|u] s2]; reflexivity.
Qed.

End Handlers.

(** X24. With the annotation absent the reconciler lists the ingresses of
    the Service's namespace and its only other calls are deletes; the
    deleted names are always among the listed names that start with
    [auto-ingress-<name>], in listing order, and they are all of them
    when no delete raises; when no listed name matches, the pass mutates
    nothing and returns. *)
Theorem annotation_removal_deletes_family {S} (gw : gateway S) (s s1 : S)
    (spec : gmap string specval) (meta : Meta) (status : gmap string pyval)
    (name namespace uid : string)
    (annotations : option (gmap string string))
    (ingresses : list V1Ingress.t) :
  default ∅ annotations !! AUTO_INGRESS_ANNOTATION = None ->
  gw (list_namespaced_ingress namespace) s = (inr ingresses, s1) ->
  let x := run gw (manage_ingress spec meta status name namespace uid
                     annotations) s in
  let members :=
    map (fun ing => (ingress_name ing, namespace)) (family name ingresses)
  in
  calls (trace x)
  = list_namespaced_ingress namespace
    :: map delete_call (deletions (trace x)) /\
  deletions (trace x) `prefix_of` members /\
  (delete_failures (trace x) = [] ->
   deletions (trace x) = members /\ outcome x = Normal tt) /\
  (members = [] -> mutations (trace x) = [] /\ outcome x = Normal tt).
Proof.
  intros Habsent Hlist x members.
  assert (Hcore :
    calls (trace x)
    = list_namespaced_ingress namespace
      :: map delete_call (deletions (trace x)) /\
    deletions (trace x) `prefix_of` members /\
    (delete_failures (trace x) = [] ->
     deletions (trace x) = members /\ outcome x = Normal tt)).
  { subst x.
    rewrite (manage_ingress_absent_run gw) by exact Habsent.
    cbv zeta. rewrite Hlist.
    pose proof (delete_family_run gw ("auto-ingress-" +:+ name) namespace
                  meta (fun n => "Deleted " +:+ n) ingresses s1) as H.
    cbv zeta in H.
    destruct (run gw (delete_family _ _ _ _ _) s1) as [[o s2] t].
    unfold outcome, trace in *. cbn [fst snd] in *.
    rewrite calls_called, deletions_list, delete_failures_list.
    destruct H as [Hc [(Ho & Hf & Hd)|(e & Ho & Hf & Hd)]].
    + rewrite Hc, Hd, Ho. fold members. repeat split; try reflexivity.
    + rewrite Hc, Hf. repeat split; try assumption; discriminate. }
  destruct Hcore as (Hc & Hp & Hall).
  split; [exact Hc|]. split; [exact Hp|]. split; [exact Hall|].
  intros Hnil. rewrite Hnil in Hp. apply prefix_nil_inv in Hp.
  split.
  - unfold mutations. rewrite Hc, Hp. reflexivity.
  - apply Hall.
    pose proof (delete_failures_le (trace x)) as Hle.
    rewrite Hp in Hle.
    destruct (delete_failures (trace x)); [reflexivity|simpl in Hle; lia].
Qed.

Lemma annotation_removal_deletes_family_witness :
  let x := run Cluster.step
             (manage_ingress web_spec ∅ ∅ "web" "ns1" "u1" None)
             sample_store in
  let members :=
    map (fun ing => (ingress_name ing, "ns1"))
        (family "web" [web_ingress "u1"; ingress_named "ns1" "manual"]) in
  members = [("auto-ingress-web-http", "ns1")] /\
  calls (trace x)
  = list_namespaced_ingress "ns1" :: map delete_call (deletions (trace x)) /\
  deletions (trace x) `prefix_of` members /\
  (delete_failures (trace x) = [] ->
   deletions (trace x) = members /\ outcome x = Normal tt) /\
  (members = [] -> mutations (trace x) = [] /\ outcome x = Normal tt).
Proof.
  split; [vm_compute; reflexivity|].
  apply (annotation_removal_deletes_family Cluster.step sample_store
           sample_store web_spec ∅ ∅ "web" "ns1" "u1" None
           [web_ingress "u1"; ingress_named "ns1" "manual"]).
  - reflexivity.
  - reflexivity.
Defined.

(** C3 fails on the code, on Service deletion. The cluster lists two
    ingresses of the family of [web] and no call raises. [cleanup_ingress]
    deletes the first, then [kopf.info], handed the metadata of the
    listed Ingress, raises [AttributeError]: the second member stays in
    the cluster, no event is posted and the handler does not return. The
    reconciler without the annotation, which hands [kopf.info] the [meta]
    of the event, deletes both on the same cluster and returns. *)
Theorem cleanup_deletes_first_member_only :
  let xc := run Cluster.step (cleanup_ingress "web" "ns1") two_member_store
  in
  let xm := run Cluster.step
              (manage_ingress web_spec ∅ ∅ "web" "ns1" "u1" None)
              two_member_store in
  map ingress_name (family "web" (map snd two_member_store))
  = ["auto-ingress-web-http"; "auto-ingress-web-metrics"] /\
  calls (trace xc)
  = [ list_namespaced_ingress "ns1";
      delete_namespaced_ingress "auto-ingress-web-http" "ns1" ] /\
  delete_failures (trace xc) = [] /\
  outcome xc = Raised AttributeError /\
  events (trace xc) = [] /\
  final xc = [("ns1", ingress_named "ns1" "auto-ingress-web-metrics")] /\
  deletions (trace xm)
  = [ ("auto-ingress-web-http", "ns1");
      ("auto-ingress-web-metrics", "ns1") ] /\
  outcome xm = Normal tt /\
  final xm = [].
Proof. repeat split; vm_compute; reflexivity. Qed.

(** On the reference cluster: the pass removes the Ingress of [web] in
    [ns1] and nothing else; run again on the result, it mutates nothing. *)
Example deletion_pass_twice_on_cluster :
  let pass := manage_ingress web_spec ∅ ∅ "web" "ns1" "u1" None in
  let x1 := run Cluster.step pass sample_store in
  let x2 := run Cluster.step pass (final x1) in
  deletions (trace x1) = [("auto-ingress-web-http", "ns1")] /\
  final x1 = [ ("ns1", ingress_named "ns1" "manual");
               ("ns2", ingress_named "ns2" "auto-ingress-web-http") ] /\
  mutations (trace x2) = [] /\
  final x2 = final x1 /\
  outcome x2 = Normal tt.
Proof. repeat split; vm_compute; reflexivity. Qed.




(** ** The upsert path *)

Lemma upsert_run {S} (gw : gateway S) (meta : Meta) (namespace : string)
    (obj : V1Ingress.t) (s : S) :
  run gw (upsert meta namespace obj) s =
  let c := create_namespaced_ingress namespace obj in
  let p := patch_namespaced_ingress (ingress_name obj) namespace obj in
  match gw c s with
  | (inr _, s1) =>
      (Normal tt, s1,
       [Called c None;
        Posted (OfService meta) "IngressCreated"
               ("Created ingress " +:+ ingress_name obj)])
  | (inl e, s1) =>
      if Z.eqb (ApiException.status e) 409 then
        match gw p s1 with
        | (inr _, s2) =>
            (Normal tt, s2,
             [Called c (Some e); Called p None;
              Posted (OfService meta) "IngressPatched"
                     ("Updated ingress " +:+ ingress_name obj)])
        | (inl e', s2) =>
            (Raised (ApiError e'), s2, [Called c (Some e); Called p (Some e')])
        end
      else
        (Raised (TemporaryError
                   ("Failed to create/patch ingress: "
                    +:+ ApiException.text e) 10),
         s1, [Called c (Some e)])
  end.
Proof.
  cbv zeta. unfold upsert.
  unfold mbind, kopf_bind, api, info. cbn [kbind try_except run].
  destruct (gw _ s) as [[e|[]] s1]; cbn [kbind try_except run failure].
  - destruct (Z.eqb (ApiException.status e) 409); cbn [kbind run].
    + destruct (gw _ s1) as [[e'|[]] s2]; reflexivity.
    + reflexivity.
  - reflexivity.
Qed.

(** With the annotation present, the handler computes the object to
    submit before it touches the cluster. *)
Lemma manage_ingress_present
    (spec : gmap string specval) (meta : Meta) (status : gmap string pyval)
    (name namespace uid path : string)
    (annotations : option (gmap string string)) :
  default ∅ annotations !! AUTO_INGRESS_ANNOTATION = Some path ->
  manage_ingress spec meta status name namespace uid annotations =
  match find_http_port {| V1Service.spec := spec |} with
  | Raised e => Raise e
  | Normal found =>
      match truthy_port found with
      | None => Raise (TemporaryError "No ports found on service" 10)
      | Some port =>
          match create_ingress_object namespace name path port with
          | Raised e => Raise e
          | Normal obj0 =>
              match set_owner_uid obj0 uid with
              | Raised e => Raise e
              | Normal obj => upsert meta namespace obj
              end
          end
      end
  end.
Proof.
  intros Hpath. unfold manage_ingress.
  rewrite bool_decide_true by (rewrite Hpath; eauto).
  cbn [negb]. unfold getitem at 1. rewrite Hpath.
  cbn [lift mbind kopf_bind kbind].
  destruct (find_http_port _) as [found|e]; [|reflexivity].
  cbn [lift mbind kopf_bind kbind].
  destruct (truthy_port found) as [port|]; [|reflexivity].
  destruct (create_ingress_object _ _ _ _) as [obj0|e]; [|reflexivity].
  cbn [lift mbind kopf_bind kbind].
  destruct (set_owner_uid obj0 uid) as [obj|e]; reflexivity.
Qed.

Lemma create_ingress_object_owner (namespace name path : string)
    (port : port) (obj0 : V1Ingress.t) :
  create_ingress_object namespace name path port = Normal obj0 ->
  V1ObjectMeta.owner_references (V1Ingress.metadata obj0)
  = [owned_by name ""].
Proof.
  unfold create_ingress_object, rbind.
  destruct (getitem port "name") as [n|]; [|discriminate].
  destruct (py_or n _) as [pn|]; [|discriminate].
  destruct (getitem port "targetPort") as [tp|]; [|discriminate].
  destruct (py_or tp _) as [num|]; [|discriminate].
  intros [= <-]. reflexivity.
Qed.

Lemma set_owner_uid_owner (name uid : string) (obj0 obj : V1Ingress.t) :
  V1ObjectMeta.owner_references (V1Ingress.metadata obj0)
  = [owned_by name ""] ->
  set_owner_uid obj0 uid = Normal obj ->
  V1ObjectMeta.owner_references (V1Ingress.metadata obj)
  = [owned_by name uid].
Proof.
  unfold set_owner_uid. intros ->. intros [= <-]. reflexivity.
Qed.

(** C8. With the annotation present and an empty port list, the handler
    raises [TemporaryError("No ports found on service", delay=10)] before
    any call: run against any cluster, it leaves the state as it was and
    the trace empty. *)
Theorem no_port_no_mutation
    (spec : gmap string specval) (meta : Meta) (status : gmap string pyval)
    (name namespace uid : string)
    (annotations : option (gmap string string)) :
  is_Some (default ∅ annotations !! AUTO_INGRESS_ANNOTATION) ->
  spec !! "ports" = Some (SPorts []) ->
  manage_ingress spec meta status name namespace uid annotations
  = Raise (TemporaryError "No ports found on service" 10) /\
  forall S (gw : gateway S) (s : S),
    run gw (manage_ingress spec meta status name namespace uid annotations) s
    = (Raised (TemporaryError "No ports found on service" 10), s, []).
Proof.
  intros [path Hpath] Hports.
  assert (H : manage_ingress spec meta status name namespace uid annotations
              = Raise (TemporaryError "No ports found on service" 10)).
  { rewrite (manage_ingress_present _ _ _ _ _ _ path) by exact Hpath.
    unfold find_http_port, getitem. cbn [V1Service.spec]. rewrite Hports.
    reflexivity. }
  split; [exact H|]. intros S gw s. rewrite H. reflexivity.
Qed.

Lemma no_port_no_mutation_witness :
  is_Some (default ∅ web_annotations !! AUTO_INGRESS_ANNOTATION) /\
  manage_ingress {[ "ports" := SPorts [] ]} ∅ ∅ "web" "ns1" "u1"
    web_annotations
  = Raise (TemporaryError "No ports found on service" 10) /\
  forall S (gw : gateway S) (s : S),
    run gw (manage_ingress {[ "ports" := SPorts [] ]} ∅ ∅ "web" "ns1" "u1"
              web_annotations) s
    = (Raised (TemporaryError "No ports found on service" 10), s, []).
Proof.
  assert (Hann : is_Some (default ∅ web_annotations
                          !! AUTO_INGRESS_ANNOTATION)).
  { exists "/app". reflexivity. }
  split; [exact Hann|].
  exact (no_port_no_mutation {[ "ports" := SPorts [] ]} ∅ ∅ "web" "ns1" "u1"
           web_annotations Hann eq_refl).
Defined.

(** ** The end-to-end scenario *)

Lemma manage_ingress_web (meta : Meta) (status : gmap string pyval)
    (uid : string) :
  manage_ingress web_spec meta status "web" "ns1" uid web_annotations
  = upsert meta "ns1" (web_ingress uid).
Proof.
  rewrite (manage_ingress_present _ _ _ _ _ _ "/app") by reflexivity.
  reflexivity.
Qed.

(** C2. For the Service [web] in [ns1] with annotation
    [auto-ingress: "/app"] and the single port
    [{name: "http", port: 80, targetPort: 8080}], whatever the cluster
    answers, the first call of the reconciler is a create in [ns1] of the
    Ingress named [auto-ingress-web-http]; that object has exactly one
    rule with exactly one path, [/app] of type [Prefix], whose backend is
    the service [web] on port 8080 (the targetPort); nothing else is ever
    submitted and nothing is deleted. *)
Theorem web_scenario_creates_ingress {S} (gw : gateway S) (s : S)
    (meta : Meta) (status : gmap string pyval) (uid : string) :
  let x := run gw (manage_ingress web_spec meta status "web" "ns1" uid
                     web_annotations) s in
  let obj := web_ingress uid in
  head (calls (trace x)) = Some (create_namespaced_ingress "ns1" obj) /\
  Forall (fun o => o = obj) (submissions (trace x)) /\
  deletions (trace x) = [] /\
  ingress_name obj = "auto-ingress-web-http" /\
  V1IngressSpec.rules (V1Ingress.spec obj)
  = [ {| V1IngressRule.http :=
           {| V1HTTPIngressRuleValue.paths :=
                [ {| V1HTTPIngressPath.path := "/app";
                     V1HTTPIngressPath.path_type := "Prefix";
                     V1HTTPIngressPath.backend :=
                       {| V1IngressBackend.service :=
                            {| V1IngressServiceBackend.name := "web";
                               V1IngressServiceBackend.port :=
                                 {| V1ServiceBackendPort.number :=
                                      PInt 8080 |} |} |} |} ] |} |} ].
Proof.
  cbv zeta. rewrite manage_ingress_web, upsert_run. cbv zeta.
  destruct (gw _ s) as [[e|[]] s1].
  - destruct (Z.eqb (ApiException.status e) 409).
    + destruct (gw _ s1) as [[e'|[]] s2];
        repeat split; repeat constructor.
    + repeat split; repeat constructor.
  - repeat split; repeat constructor.
Qed.

(** On the reference cluster, starting empty, the scenario ends with the
    expected Ingress stored and an [IngressCreated] event. *)
Example web_scenario_on_cluster :
  let x := run Cluster.step
             (manage_ingress web_spec ∅ ∅ "web" "ns1" "u1" web_annotations)
             [] in
  outcome x = Normal tt /\
  final x = [("ns1", web_ingress "u1")] /\
  events (trace x)
  = [("IngressCreated", "Created ingress auto-ingress-web-http")].
Proof. repeat split; vm_compute; reflexivity. Qed.

(** ** Conflicts and failures *)

(** C5. When the create of the desired Ingress raises a 409, the
    reconciler falls back to one patch of the same name with the same
    object and makes no other call; when that patch succeeds it returns
    normally, having posted [IngressPatched] with the message
    [Updated ingress <name>]. *)
Theorem conflict_falls_back_to_patch {S} (gw : gateway S) (s s1 : S)
    (spec : gmap string specval) (meta : Meta) (status : gmap string pyval)
    (name namespace uid path : string)
    (annotations : option (gmap string string))
    (found : option port) (port : port) (obj0 obj : V1Ingress.t)
    (e : ApiException.t) :
  default ∅ annotations !! AUTO_INGRESS_ANNOTATION = Some path ->
  find_http_port {| V1Service.spec := spec |} = Normal found ->
  truthy_port found = Some port ->
  create_ingress_object namespace name path port = Normal obj0 ->
  set_owner_uid obj0 uid = Normal obj ->
  gw (create_namespaced_ingress namespace obj) s = (inl e, s1) ->
  ApiException.status e = 409 ->
  let x := run gw (manage_ingress spec meta status name namespace uid
                     annotations) s in
  let create := create_namespaced_ingress namespace obj in
  let patch := patch_namespaced_ingress (ingress_name obj) namespace obj in
  calls (trace x) = [create; patch] /\
  forall s2, gw patch s1 = (inr tt, s2) ->
    x = (Normal tt, s2,
         [ Called create (Some e); Called patch None;
           Posted (OfService meta) "IngressPatched"
                  ("Updated ingress " +:+ ingress_name obj) ]).
Proof.
  intros Hpath Hfound Hport Hobj0 Hobj Hcreate H409. cbv zeta.
  rewrite (manage_ingress_present _ _ _ _ _ _ path) by exact Hpath.
  rewrite Hfound, Hport, Hobj0, Hobj, upsert_run. cbv zeta.
  rewrite Hcreate, H409. cbn [Z.eqb Pos.eqb]. split.
  - destruct (gw _ s1) as [[e'|[]] s2]; reflexivity.
  - intros s2 Hpatch. rewrite Hpatch. reflexivity.
Qed.

(** Reconciling [web] a second time on the reference cluster: the create
    conflicts, the patch goes through, and the store still holds one
    object. *)
Lemma conflict_falls_back_to_patch_witness :
  let s := [("ns1", web_ingress "u1")] in
  let obj := web_ingress "u1" in
  let create := create_namespaced_ingress "ns1" obj in
  let patch := patch_namespaced_ingress (ingress_name obj) "ns1" obj in
  let x := run Cluster.step
             (manage_ingress web_spec ∅ ∅ "web" "ns1" "u1" web_annotations)
             s in
  final (run Cluster.step
           (manage_ingress web_spec ∅ ∅ "web" "ns1" "u1" web_annotations) [])
  = s /\
  Cluster.step create s = (inl Cluster.conflict, s) /\
  calls (trace x) = [create; patch] /\
  x = (Normal tt, s,
       [ Called create (Some Cluster.conflict); Called patch None;
         Posted (OfService ∅) "IngressPatched"
                ("Updated ingress " +:+ ingress_name obj) ]).
Proof.
  split; [vm_compute; reflexivity|].
  split; [vm_compute; reflexivity|].
  pose proof (conflict_falls_back_to_patch Cluster.step
                [("ns1", web_ingress "u1")] [("ns1", web_ingress "u1")]
                web_spec ∅ ∅ "web" "ns1" "u1" "/app" web_annotations
                (Some web_port) web_port (web_ingress "") (web_ingress "u1")
                Cluster.conflict eq_refl eq_refl eq_refl eq_refl eq_refl
                eq_refl eq_refl) as [Hcalls Hrun].
  split; [exact Hcalls|].
  apply Hrun. vm_compute. reflexivity.
Defined.

(** C6 fails on the code. With the Ingress of [web] already in the
    cluster, the create conflicts and the patch then raises 503: the
    [ApiException] leaves [manage_ingress] as it is, not as a
    [TemporaryError]. [cleanup_ingress] has no handler at all: a failing
    list or delete leaves it the same way. *)
Theorem patch_and_cleanup_failures_escape :
  outcome (run (Cluster.faulty patch_down)
             (manage_ingress web_spec ∅ ∅ "web" "ns1" "u1" web_annotations)
             [("ns1", web_ingress "u1")])
  = Raised (ApiError Cluster.unavailable) /\
  outcome (run (Cluster.faulty list_down)
             (cleanup_ingress "web" "ns1") sample_store)
  = Raised (ApiError Cluster.unavailable) /\
  outcome (run (Cluster.faulty delete_down)
             (cleanup_ingress "web" "ns1") sample_store)
  = Raised (ApiError Cluster.unavailable).
Proof. repeat split; vm_compute; reflexivity. Qed.

(** What [manage_ingress] does wrap: a failing list, a failing delete, and
    a create that fails with anything but 409 all end in a
    [TemporaryError] with delay 10. *)
Lemma manage_ingress_wraps_list_failure {S} (gw : gateway S) (s s1 : S)
    (spec : gmap string specval) (meta : Meta) (status : gmap string pyval)
    (name namespace uid : string)
    (annotations : option (gmap string string)) (e : ApiException.t) :
  default ∅ annotations !! AUTO_INGRESS_ANNOTATION = None ->
  gw (list_namespaced_ingress namespace) s = (inl e, s1) ->
  outcome (run gw (manage_ingress spec meta status name namespace uid
                     annotations) s)
  = Raised (TemporaryError
              ("Failed to list/delete ingress: " +:+ ApiException.text e)
              10).
Proof.
  intros Habsent Hlist.
  rewrite (manage_ingress_absent_run gw) by exact Habsent.
  cbv zeta. rewrite Hlist. reflexivity.
Qed.

Lemma upsert_wraps_create_failure {S} (gw : gateway S) (s s1 : S)
    (meta : Meta) (namespace : string) (obj : V1Ingress.t)
    (e : ApiException.t) :
  gw (create_namespaced_ingress namespace obj) s = (inl e, s1) ->
  ApiException.status e <> 409 ->
  run gw (upsert meta namespace obj) s
  = (Raised (TemporaryError
               ("Failed to create/patch ingress: " +:+ ApiException.text e)
               10),
     s1, [Called (create_namespaced_ingress namespace obj) (Some e)]).
Proof.
  intros Hcreate Hne. rewrite upsert_run. cbv zeta. rewrite Hcreate.
  destruct (Z.eqb_spec (ApiException.status e) 409) as [H|_];
    [contradiction|reflexivity].
Qed.

Lemma upsert_lets_patch_failure_escape {S} (gw : gateway S) (s s1 s2 : S)
    (meta : Meta) (namespace : string) (obj : V1Ingress.t)
    (e e' : ApiException.t) :
  gw (create_namespaced_ingress namespace obj) s = (inl e, s1) ->
  ApiException.status e = 409 ->
  gw (patch_namespaced_ingress (ingress_name obj) namespace obj) s1
  = (inl e', s2) ->
  outcome (run gw (upsert meta namespace obj) s) = Raised (ApiError e').
Proof.
  intros Hcreate H409 Hpatch. rewrite upsert_run. cbv zeta.
  rewrite Hcreate, H409. cbn [Z.eqb Pos.eqb]. rewrite Hpatch. reflexivity.
Qed.

(** ** Owner references *)

Lemma upsert_submissions {S} (gw : gateway S) (meta : Meta)
    (namespace : string) (obj : V1Ingress.t) (s : S) :
  Forall (fun o => o = obj)
         (submissions (trace (run gw (upsert meta namespace obj) s))).
Proof.
  rewrite upsert_run. cbv zeta.
  destruct (gw _ s) as [[e|[]] s1].
  - destruct (Z.eqb (ApiException.status e) 409).
    + destruct (gw _ s1) as [[e'|[]] s2]; repeat constructor.
    + repeat constructor.
  - repeat constructor.
Qed.

(** C9. The builder gives the Ingress exactly one owner reference:
    apiVersion [v1], kind [Service], the name of the Service, an empty
    uid, controller and blockOwnerDeletion true. The fill-in step then
    succeeds and puts the uid of the event in its place, and the
    reconciler's first call is the create of that object. Every Ingress
    the reconciler submits, by create or by patch, carries exactly that
    one owner reference with the uid of the event. The cleanup handler
    submits nothing. *)
Theorem submitted_ingress_owner {S} (gw : gateway S) (s : S)
    (spec : gmap string specval) (meta : Meta) (status : gmap string pyval)
    (name namespace uid : string)
    (annotations : option (gmap string string)) :
  let x := run gw (manage_ingress spec meta status name namespace uid
                     annotations) s in
  let owner (u : string) :=
    {| V1OwnerReference.api_version := "v1";
       V1OwnerReference.kind := "Service";
       V1OwnerReference.name := name;
       V1OwnerReference.uid := u;
       V1OwnerReference.controller := true;
       V1OwnerReference.block_owner_deletion := true |} in
  (forall path found port obj0,
     default ∅ annotations !! AUTO_INGRESS_ANNOTATION = Some path ->
     find_http_port {| V1Service.spec := spec |} = Normal found ->
     truthy_port found = Some port ->
     create_ingress_object namespace name path port = Normal obj0 ->
     V1ObjectMeta.owner_references (V1Ingress.metadata obj0) = [owner ""] /\
     exists obj,
       set_owner_uid obj0 uid = Normal obj /\
       V1ObjectMeta.owner_references (V1Ingress.metadata obj) = [owner uid]
       /\
       head (calls (trace x))
       = Some (create_namespaced_ingress namespace obj)) /\
  Forall (fun obj =>
            V1ObjectMeta.owner_references (V1Ingress.metadata obj)
            = [owner uid])
         (submissions (trace x)) /\
  submissions (trace (run gw (cleanup_ingress name namespace) s)) = [].
Proof.
  cbv zeta. split; [|split].
  - intros path found port obj0 Hpath Hfound Hport Hobj0.
    pose proof (create_ingress_object_owner _ _ _ _ _ Hobj0) as Howner0.
    split; [exact Howner0|].
    destruct (set_owner_uid obj0 uid) as [obj|e] eqn:Hobj.
    2:{ unfold set_owner_uid in Hobj. rewrite Howner0 in Hobj.
        discriminate. }
    exists obj. split; [reflexivity|].
    split; [exact (set_owner_uid_owner _ _ _ _ Howner0 Hobj)|].
    rewrite (manage_ingress_present _ _ _ _ _ _ path) by exact Hpath.
    rewrite Hfound, Hport, Hobj0, Hobj, upsert_run. cbv zeta.
    destruct (gw _ s) as [[e|[]] s1]; [|reflexivity].
    destruct (Z.eqb (ApiException.status e) 409); [|reflexivity].
    destruct (gw _ s1) as [[e'|[]] s2]; reflexivity.
  - destruct (default ∅ annotations !! AUTO_INGRESS_ANNOTATION)
      as [path|] eqn:Hpath.
    + rewrite (manage_ingress_present _ _ _ _ _ _ path) by exact Hpath.
      destruct (find_http_port _) as [found|e]; [|constructor].
      destruct (truthy_port found) as [port|]; [|constructor].
      destruct (create_ingress_object _ _ _ _) as [obj0|e] eqn:Hobj0;
        [|constructor].
      destruct (set_owner_uid obj0 uid) as [obj|e] eqn:Hobj; [|constructor].
      apply create_ingress_object_owner in Hobj0.
      pose proof (set_owner_uid_owner _ _ _ _ Hobj0 Hobj) as Howner.
      eapply Forall_impl; [apply upsert_submissions|].
      intros o ->. exact Howner.
    + rewrite (manage_ingress_absent_run gw) by exact Hpath. cbv zeta.
      destruct (gw _ s) as [[e|ingresses] s1]; [constructor|].
      pose proof (delete_family_run gw ("auto-ingress-" +:+ name) namespace
                    meta (fun n => "Deleted " +:+ n) ingresses s1)
        as [Hc _].
      destruct (run gw (delete_family _ _ _ _ _) s1) as [[o s2] t].
      unfold trace in *. cbn [snd] in *.
      unfold submissions. rewrite calls_called, Hc. cbn [omap list_omap
        submission_of]. rewrite submissions_deletes. constructor.
  - rewrite (cleanup_ingress_run gw). cbv zeta.
    destruct (gw _ s) as [[e|ingresses] s1]; [reflexivity|].
    destruct (family name ingresses) as [|ing rest]; [reflexivity|].
    cbv zeta. destruct (gw _ s1) as [[e|u] s2]; reflexivity.
Qed.

(** The Service [web] with uid [u1] on an empty cluster: the object built
    carries the one owner reference with an empty uid, the object created
    the same reference with uid [u1]. *)
Lemma submitted_ingress_owner_witness :
  let x := run Cluster.step
             (manage_ingress web_spec ∅ ∅ "web" "ns1" "u1" web_annotations)
             [] in
  create_ingress_object "ns1" "web" "/app" web_port
  = Normal (web_ingress "") /\
  V1ObjectMeta.owner_references (V1Ingress.metadata (web_ingress ""))
  = [owned_by "web" ""] /\
  (exists obj,
     set_owner_uid (web_ingress "") "u1" = Normal obj /\
     V1ObjectMeta.owner_references (V1Ingress.metadata obj)
     = [owned_by "web" "u1"] /\
     head (calls (trace x)) = Some (create_namespaced_ingress "ns1" obj)) /\
  submissions (trace x) = [web_ingress "u1"].
Proof.
  split; [vm_compute; reflexivity|].
  destruct (proj1 (submitted_ingress_owner Cluster.step [] web_spec ∅ ∅
                     "web" "ns1" "u1" web_annotations)
              "/app" (Some web_port) web_port (web_ingress "")
              eq_refl eq_refl eq_refl eq_refl) as [Hbuilt Hsent].
  split; [exact Hbuilt|]. split; [exact Hsent|].
  vm_compute. reflexivity.
Defined.

(** ** Names and families *)

Lemma startswith_app_l (a b p : string) :
  startswith a p = true -> startswith (a +:+ b) p = true.
Proof.
  revert a. induction p as [|c p IH]; intros a; [reflexivity|].
  destruct a as [|d a]; [discriminate|].
  simpl. destruct (Ascii.eqb c d); [apply IH|discriminate].
Qed.

(** Which names the filter of a Service selects: those whose service
    part, delimiter and port part together start with the Service name. *)
Lemma family_membership (service_name other : string) (pn : pyval) :
  startswith (build_ingress_name other pn) ("auto-ingress-" +:+ service_name)
  = startswith (other +:+ "-" +:+ py_str pn) service_name.
Proof. unfold build_ingress_name. apply startswith_app_inv. Qed.

(** X3. Any Service whose name extends [service_name] has its ingresses in
    the family of [service_name]. *)
Lemma family_false_positives (service_name ext : string) (pn : pyval) :
  startswith (build_ingress_name (service_name +:+ ext) pn)
             ("auto-ingress-" +:+ service_name) = true.
Proof.
  rewrite family_membership.
  apply startswith_app_l, startswith_app.
Qed.

(** C1 fails on the code. The name generated for the Service [svc2]
    starts with the family prefix of the Service [svc], and both handlers
    of [svc] delete the Ingress of [svc2]. *)
Theorem prefix_filter_false_positive :
  let theirs := build_ingress_name "svc2" (PStr "http") in
  let store := [("ns1", ingress_named "ns1" theirs)] in
  "svc" <> "svc2" /\
  theirs = "auto-ingress-svc2-http" /\
  startswith theirs ("auto-ingress-" +:+ "svc") = true /\
  deletions (trace (run Cluster.step
                      (manage_ingress ∅ ∅ ∅ "svc" "ns1" "u1" None) store))
  = [(theirs, "ns1")] /\
  deletions (trace (run Cluster.step (cleanup_ingress "svc" "ns1") store))
  = [(theirs, "ns1")].
Proof. repeat split; try discriminate; vm_compute; reflexivity. Qed.

(** ** The port selector *)

Lemma find_http_port_loop_raises (ports : list port) (e : exn) :
  find_http_port_loop ports = Raised e -> e = KeyError "name".
Proof.
  induction ports as [|p rest IH]; [discriminate|].
  cbn [find_http_port_loop]. unfold getitem, rbind.
  destruct (p !! "name") as [n|]; [|intros [= <-]; reflexivity].
  destruct (py_eqb n (PStr "http")); [discriminate|exact IH].
Qed.

Lemma find_http_port_loop_key_error (ports : list port) :
  find_http_port_loop ports = Raised (KeyError "name")
  <-> scan_hits_unnamed ports.
Proof.
  induction ports as [|p rest IH].
  - split; [discriminate|].
    intros (pre & q & post & H & _). destruct pre; discriminate.
  - cbn [find_http_port_loop]. unfold getitem, rbind.
    destruct (p !! "name") as [n|] eqn:Hn.
    + unfold py_eqb. destruct (bool_decide_reflect (n = PStr "http")) as [->|Hne].
      * split; [discriminate|].
        intros (pre & q & post & H & Hq & Hpre).
        destruct pre as [|p0 pre]; injection H as <- ->.
        -- congruence.
        -- apply Forall_cons in Hpre as [(v & Hv & Hvne) _]. congruence.
      * rewrite IH. split.
        -- intros (pre & q & post & -> & Hq & Hpre).
           exists (p :: pre), q, post. repeat split; [exact Hq|].
           constructor; [exists n; split; assumption|exact Hpre].
        -- intros (pre & q & post & H & Hq & Hpre).
           destruct pre as [|p0 pre]; injection H as <- ->.
           ++ congruence.
           ++ apply Forall_cons in Hpre as [_ Hpre].
              exists pre, q, post. repeat split; assumption.
    + split; [|reflexivity]. intros _.
      exists [], p, rest. repeat split; [exact Hn|constructor].
Qed.

(** X5. The policy, where it applies: when every port carries a name, the
    selector returns the first port named ["http"], else the first port,
    else none. *)
Lemma find_http_port_policy (service : V1Service.t) (ports : list port) :
  V1Service.spec service !! "ports" = Some (SPorts ports) ->
  Forall (fun p => is_Some (p !! "name")) ports ->
  find_http_port service
  = Normal (match List.find
                    (fun p => bool_decide (p !! "name" = Some (PStr "http")))
                    ports with
            | Some p => Some p
            | None => head ports
            end).
Proof.
  intros Hports Hnamed. unfold find_http_port, getitem.
  rewrite Hports. cbn [rbind].
  assert (Hloop : find_http_port_loop ports
                  = Normal (List.find
                      (fun p => bool_decide (p !! "name" = Some (PStr "http")))
                      ports)).
  { clear Hports. induction Hnamed as [|p rest [n Hn] _ IH]; [reflexivity|].
    cbn [find_http_port_loop List.find]. unfold getitem. rewrite Hn.
    cbn [rbind]. unfold py_eqb.
    destruct (bool_decide_reflect (n = PStr "http")) as [->|Hne].
    - rewrite bool_decide_true by reflexivity. reflexivity.
    - rewrite bool_decide_false by congruence. exact IH. }
  rewrite Hloop. cbn [rbind].
  destruct (List.find _ ports); reflexivity.
Qed.

(** C4 fails on the code. A Service with a single port that has no name:
    the selector raises [KeyError('name')] where the policy returns that
    port. *)
Theorem find_http_port_unnamed_port :
  find_http_port unnamed_service = Raised (KeyError "name") /\
  head [unnamed_port] = Some unnamed_port.
Proof. split; vm_compute; reflexivity. Qed.

(** C10. When the Service spec holds a port list, [find_http_port] raises
    [KeyError('name')] exactly when its scan reaches a port without a
    ["name"] key, that is, when such a port comes before any port named
    ["http"]; in particular when the first port has none, whatever
    follows. Otherwise it returns. *)
Theorem find_http_port_key_error (service : V1Service.t) (ports : list port) :
  V1Service.spec service !! "ports" = Some (SPorts ports) ->
  (find_http_port service = Raised (KeyError "name")
   <-> scan_hits_unnamed ports) /\
  (forall p rest, ports = p :: rest -> p !! "name" = None ->
   find_http_port service = Raised (KeyError "name")) /\
  (~ scan_hits_unnamed ports -> exists r, find_http_port service = Normal r).
Proof.
  intros Hports.
  assert (Hiff : find_http_port service = Raised (KeyError "name")
                 <-> scan_hits_unnamed ports).
  { rewrite <- find_http_port_loop_key_error.
    unfold find_http_port, getitem. rewrite Hports. cbn [rbind].
    destruct (find_http_port_loop ports) as [[p|]|e] eqn:Hloop; cbn [rbind].
    - split; discriminate.
    - split; discriminate.
    - reflexivity. }
  split; [exact Hiff|]. split.
  - intros p rest -> Hp. apply Hiff.
    exists [], p, rest. repeat split; [exact Hp|constructor].
  - intros Hno.
    unfold find_http_port, getitem. rewrite Hports. cbn [rbind].
    destruct (find_http_port_loop ports) as [[p|]|e] eqn:Hloop; cbn [rbind];
      eauto.
    exfalso. apply Hno. apply find_http_port_loop_key_error.
    rewrite Hloop. f_equal. eapply find_http_port_loop_raises. exact Hloop.
Qed.

(** A port named ["http"] does not help when an unnamed port precedes
    it. *)
Example find_http_port_unnamed_before_http :
  find_http_port
    {| V1Service.spec := {[ "ports" := SPorts [unnamed_port; web_port] ]} |}
  = Raised (KeyError "name").
Proof. vm_compute. reflexivity. Qed.

Lemma find_http_port_key_error_witness :
  let ports := [unnamed_port; web_port] in
  let service := {| V1Service.spec := {[ "ports" := SPorts ports ]} |} in
  (find_http_port service = Raised (KeyError "name")
   <-> scan_hits_unnamed ports) /\
  (forall p rest, ports = p :: rest -> p !! "name" = None ->
   find_http_port service = Raised (KeyError "name")) /\
  (~ scan_hits_unnamed ports -> exists r, find_http_port service = Normal r).
Proof.
  exact (find_http_port_key_error
           {| V1Service.spec := {[ "ports" := SPorts [unnamed_port; web_port] ]} |}
           [unnamed_port; web_port] eq_refl).
Defined.

(** * Further properties of the code *)

(** ** [build_ingress_name] *)

Lemma string_app_assoc (a b c : string) :
  (a +:+ b) +:+ c = a +:+ (b +:+ c).
Proof.
  induction a as [|x a IH]; [reflexivity|].
  change (String x ((a +:+ b) +:+ c) = String x (a +:+ (b +:+ c))).
  rewrite IH. reflexivity.
Qed.

Lemma startswith_short (a b p : string) :
  (String.length p <= String.length a)%nat ->
  startswith (a +:+ b) p = startswith a p.
Proof.
  revert a. induction p as [|c p IH]; intros a Hlen; [reflexivity|].
  destruct a as [|d a]; [simpl in Hlen; lia|].
  simpl. destruct (Ascii.eqb c d); [|reflexivity].
  apply IH. simpl in Hlen. lia.
Qed.

(** X1. For one Service, two port identifiers give the same Ingress name
    exactly when they render to the same text; in particular distinct
    port names give distinct Ingress names, and so do distinct port
    numbers. *)
Theorem build_ingress_name_port_injective (service_name : string)
    (p1 p2 : pyval) :
  (build_ingress_name service_name p1 = build_ingress_name service_name p2
   <-> py_str p1 = py_str p2) /\
  (forall n1 n2 : string,
     build_ingress_name service_name (PStr n1)
     = build_ingress_name service_name (PStr n2) -> n1 = n2) /\
  (forall z1 z2 : Z,
     build_ingress_name service_name (PInt z1)
     = build_ingress_name service_name (PInt z2) -> z1 = z2).
Proof.
  assert (Hinj : forall q1 q2,
    build_ingress_name service_name q1 = build_ingress_name service_name q2
    -> py_str q1 = py_str q2).
  { intros q1 q2 H. unfold build_ingress_name in H.
    apply (inj (String.app _)) in H.
    apply (inj (String.app _)) in H.
    apply (inj (String.app _)) in H. exact H. }
  split; [|split].
  - split; [apply Hinj|].
    intros H. unfold build_ingress_name. rewrite H. reflexivity.
  - intros n1 n2 H. exact (Hinj _ _ H).
  - intros z1 z2 H. apply Hinj in H. cbn [py_str] in H.
    apply (inj pretty) in H. exact H.
Qed.

(** X2. The name does not determine the Service: the delimiter [-] may
    occur in service names and in port names, so the Service [a-b] with
    port [c] and the Service [a] with port [b-c] get the same Ingress
    name. *)
Theorem build_ingress_name_service_collision (a b c : string) :
  build_ingress_name (a +:+ "-" +:+ b) (PStr c)
  = build_ingress_name a (PStr (b +:+ "-" +:+ c)) /\
  a +:+ "-" +:+ b <> a.
Proof.
  split.
  - unfold build_ingress_name. cbn [py_str].
    rewrite !string_app_assoc. reflexivity.
  - induction a as [|x a IH]; [discriminate|].
    intros H. apply IH. injection H as H. exact H.
Qed.

(** X4. For a Service name no longer than another, the other Service's
    Ingress names fall under its family prefix exactly when the other
    name starts with it: no Service is mistaken for one whose name it
    does not begin. *)
Theorem family_membership_by_service_name (service_name other : string)
    (pn : pyval) :
  (String.length service_name <= String.length other)%nat ->
  startswith (build_ingress_name other pn) ("auto-ingress-" +:+ service_name)
  = startswith other service_name.
Proof.
  intros Hlen. rewrite family_membership. apply startswith_short. exact Hlen.
Qed.

Lemma family_membership_by_service_name_witness :
  (String.length "svc" <= String.length "web")%nat /\
  startswith (build_ingress_name "web" (PStr "http"))
             ("auto-ingress-" +:+ "svc")
  = startswith "web" "svc" /\
  startswith "web" "svc" = false.
Proof.
  split; [simpl; lia|]. split; [|reflexivity].
  apply (family_membership_by_service_name "svc" "web" (PStr "http")).
  simpl. lia.
Defined.

(** ** [find_http_port] *)

Lemma find_http_port_policy_witness :
  let ports := [metrics_port; http_port] in
  let service := {| V1Service.spec := {[ "ports" := SPorts ports ]} |} in
  Forall (fun p => is_Some (p !! "name")) ports /\
  find_http_port service = Normal (Some http_port).
Proof.
  assert (Hnamed : Forall (fun p : port => is_Some (p !! "name"))
                          [metrics_port; http_port]).
  { repeat constructor; eexists; vm_compute; reflexivity. }
  split; [exact Hnamed|].
  exact (find_http_port_policy
           {| V1Service.spec :=
                {[ "ports" := SPorts [metrics_port; http_port] ]} |}
           [metrics_port; http_port] eq_refl Hnamed).
Defined.

Lemma find_http_port_loop_found (ports : list port) (p : port) :
  find_http_port_loop ports = Normal (Some p) ->
  p ∈ ports /\ p !! "name" = Some (PStr "http").
Proof.
  induction ports as [|q rest IH]; [discriminate|].
  cbn [find_http_port_loop]. unfold getitem, rbind.
  destruct (q !! "name") as [n|] eqn:Hn; [|discriminate].
  unfold py_eqb. destruct (bool_decide_reflect (n = PStr "http")) as [->|Hne].
  - intros [= <-]. split; [apply list_elem_of_here|exact Hn].
  - intros H. apply IH in H as [Hin Hp].
    split; [apply list_elem_of_further; exact Hin|exact Hp].
Qed.

Lemma find_http_port_loop_not_found (ports : list port) :
  find_http_port_loop ports = Normal None ->
  Forall (fun p => is_Some (p !! "name")) ports.
Proof.
  induction ports as [|q rest IH]; [constructor|].
  cbn [find_http_port_loop]. unfold getitem, rbind.
  destruct (q !! "name") as [n|] eqn:Hn; [|discriminate].
  destruct (py_eqb n (PStr "http")); [discriminate|].
  intros H. constructor; [eauto|apply IH; exact H].
Qed.

(** X6. When the spec holds a port list, the selector returns none
    exactly when the list is empty. *)
Theorem find_http_port_none_iff_empty (service : V1Service.t)
    (ports : list port) :
  V1Service.spec service !! "ports" = Some (SPorts ports) ->
  (find_http_port service = Normal None <-> ports = []).
Proof.
  intros Hports. unfold find_http_port, getitem. rewrite Hports.
  cbn [rbind]. split.
  - destruct ports as [|p rest]; [reflexivity|].
    destruct (find_http_port_loop (p :: rest)) as [[q|]|e]; discriminate.
  - intros ->. reflexivity.
Qed.

Lemma find_http_port_none_iff_empty_witness :
  let service := {| V1Service.spec := {[ "ports" := SPorts [] ]} |} in
  (find_http_port service = Normal None <-> @nil port = []) /\
  find_http_port service = Normal None.
Proof.
  pose proof (find_http_port_none_iff_empty
                {| V1Service.spec := {[ "ports" := SPorts [] ]} |} []
                eq_refl) as H.
  split; [exact H|]. apply H. reflexivity.
Defined.

(** X7. A port the selector returns is one of the listed ports, carries a
    ["name"] key and so is a non-empty mapping: the test [if not port] of
    the reconciler lets it through. *)
Theorem find_http_port_returns_listed_port (service : V1Service.t)
    (ports : list port) (p : port) :
  V1Service.spec service !! "ports" = Some (SPorts ports) ->
  find_http_port service = Normal (Some p) ->
  p ∈ ports /\ is_Some (p !! "name") /\ truthy_port (Some p) = Some p.
Proof.
  intros Hports. unfold find_http_port, getitem. rewrite Hports.
  cbn [rbind]. intros H.
  assert (Hp : p ∈ ports /\ is_Some (p !! "name")).
  { destruct (find_http_port_loop ports) as [[q|]|e] eqn:Hloop;
      cbn [rbind] in H; [| |discriminate].
    - injection H as ->. apply find_http_port_loop_found in Hloop as [? Hn].
      split; [assumption|rewrite Hn; eauto].
    - injection H as H. apply find_http_port_loop_not_found in Hloop.
      destruct ports as [|q rest]; [discriminate|].
      injection H as ->. split; [apply list_elem_of_here|].
      apply Forall_cons in Hloop as [Hq _]. exact Hq. }
  destruct Hp as [Hin Hname]. repeat split; try assumption.
  cbn [truthy_port]. rewrite bool_decide_false; [reflexivity|].
  intros ->. destruct Hname as [v Hv]. rewrite lookup_empty in Hv.
  discriminate.
Qed.

Lemma find_http_port_returns_listed_port_witness :
  let ports := [metrics_port] in
  let service := {| V1Service.spec := {[ "ports" := SPorts ports ]} |} in
  find_http_port service = Normal (Some metrics_port) /\
  metrics_port ∈ ports /\ is_Some (metrics_port !! "name") /\
  truthy_port (Some metrics_port) = Some metrics_port.
Proof.
  assert (H : find_http_port
                {| V1Service.spec := {[ "ports" := SPorts [metrics_port] ]} |}
              = Normal (Some metrics_port)) by (vm_compute; reflexivity).
  split; [exact H|].
  exact (find_http_port_returns_listed_port
           {| V1Service.spec := {[ "ports" := SPorts [metrics_port] ]} |}
           [metrics_port] metrics_port eq_refl H).
Defined.

(** X8. The selector raises [KeyError('ports')] exactly when the spec has
    no ["ports"] key. When ["ports"] holds a list of port mappings, the
    only exception it can raise is [KeyError('name')]. When ["ports"]
    holds [None], a number or a non-empty string, it raises [TypeError].
    On these values it raises nothing else. *)
Theorem find_http_port_exceptions (service : V1Service.t) :
  (find_http_port service = Raised (KeyError "ports")
   <-> V1Service.spec service !! "ports" = None) /\
  (forall ports e,
     V1Service.spec service !! "ports" = Some (SPorts ports) ->
     find_http_port service = Raised e -> e = KeyError "name") /\
  (forall v,
     V1Service.spec service !! "ports" = Some (SOther v) -> v <> PStr "" ->
     find_http_port service = Raised TypeError) /\
  (forall e, find_http_port service = Raised e ->
     e = KeyError "ports" \/ e = KeyError "name" \/ e = TypeError).
Proof.
  unfold find_http_port, getitem.
  destruct (V1Service.spec service !! "ports") as [[ports|v]|] eqn:Hports;
    cbn [rbind].
  - assert (Hloop : forall e,
      rbind (find_http_port_loop ports) (fun found =>
        match found with
        | Some p => Normal (Some p)
        | None => Normal (first_or_none ports)
        end) = Raised e -> e = KeyError "name").
    { intros e.
      destruct (find_http_port_loop ports) as [[q|]|e0] eqn:Hl; cbn [rbind];
        try discriminate.
      apply find_http_port_loop_raises in Hl as ->. intros [= <-].
      reflexivity. }
    split; [split; [|discriminate]|].
    { intros H. apply Hloop in H. discriminate. }
    split; [intros ports' e [= <-]; apply Hloop|].
    split; [intros v [=]|].
    intros e H. right. left. apply Hloop. exact H.
  - split; [split; [|discriminate]|].
    { destruct v as [|z|[|c s]]; discriminate. }
    split; [intros ports' e [=]|].
    split.
    + intros v' [= <-] Hne.
      destruct v as [|z|[|c s]]; try reflexivity. contradiction.
    + intros e. destruct v as [|z|[|c s]]; try discriminate;
        intros [= <-]; right; right; reflexivity.
  - split; [split; reflexivity|].
    split; [intros ports' e [=]|].
    split; [intros v [=]|].
    intros e [= <-]. left. reflexivity.
Qed.

(** ** [create_ingress_object] *)

Lemma create_ingress_object_inv (namespace service_name path : string)
    (port : port) (obj : V1Ingress.t) :
  create_ingress_object namespace service_name path port = Normal obj ->
  exists n tp port_name number,
    port !! "name" = Some n /\
    port !! "targetPort" = Some tp /\
    py_or n (rbind (getitem port "port") (fun p => Normal (PStr (py_str p))))
    = Normal port_name /\
    py_or tp (getitem port "port") = Normal number /\
    obj =
    {| V1Ingress.metadata :=
         {| V1ObjectMeta.name := build_ingress_name service_name port_name;
            V1ObjectMeta.namespace := namespace;
            V1ObjectMeta.annotations :=
              {[ INGRESS_CLASS_ANNOTATION := INGRESS_CLASS_VALUE ]};
            V1ObjectMeta.owner_references := [owned_by service_name ""] |};
       V1Ingress.spec :=
         {| V1IngressSpec.rules :=
              [ {| V1IngressRule.http :=
                     {| V1HTTPIngressRuleValue.paths :=
                          [ {| V1HTTPIngressPath.path := path;
                               V1HTTPIngressPath.path_type := "Prefix";
                               V1HTTPIngressPath.backend :=
                                 {| V1IngressBackend.service :=
                                      {| V1IngressServiceBackend.name :=
                                           service_name;
                                         V1IngressServiceBackend.port :=
                                           {| V1ServiceBackendPort.number :=
                                                number |} |} |} |} ] |} |} ]
         |} |}.
Proof.
  unfold create_ingress_object.
  unfold getitem at 1. destruct (port !! "name") as [n|]; [|discriminate].
  cbn [rbind].
  destruct (py_or n _) as [pn|] eqn:Hpn; [|discriminate]. cbn [rbind].
  unfold getitem at 1.
  destruct (port !! "targetPort") as [tp|]; [|discriminate]. cbn [rbind].
  destruct (py_or tp _) as [num|] eqn:Hnum; [|discriminate]. cbn [rbind].
  intros [= <-]. exists n, tp, pn, num. repeat split; assumption.
Qed.

(** X9. Whatever the inputs, an Ingress that [create_ingress_object]
    builds lies in the given namespace, carries the one ingress-class
    annotation, and has exactly one rule with exactly one path: the given
    path, of type [Prefix], backed by the given Service on the port's
    targetPort when that is truthy and else on its port number. *)
Theorem create_ingress_object_shape (namespace service_name path : string)
    (port : port) (obj : V1Ingress.t) :
  create_ingress_object namespace service_name path port = Normal obj ->
  V1ObjectMeta.namespace (V1Ingress.metadata obj) = namespace /\
  V1ObjectMeta.annotations (V1Ingress.metadata obj)
  = {[ "traefik.ingress.kubernetes.io/router.entrypoints" := "web" ]} /\
  exists tp number,
    port !! "targetPort" = Some tp /\
    (if truthy tp then number = tp else port !! "port" = Some number) /\
    V1IngressSpec.rules (V1Ingress.spec obj)
    = [ {| V1IngressRule.http :=
             {| V1HTTPIngressRuleValue.paths :=
                  [ {| V1HTTPIngressPath.path := path;
                       V1HTTPIngressPath.path_type := "Prefix";
                       V1HTTPIngressPath.backend :=
                         {| V1IngressBackend.service :=
                              {| V1IngressServiceBackend.name := service_name;
                                 V1IngressServiceBackend.port :=
                                   {| V1ServiceBackendPort.number :=
                                        number |} |} |} |} ] |} |} ].
Proof.
  intros H.
  apply create_ingress_object_inv in H
    as (n & tp & pn & num & Hn & Htp & Hpn & Hnum & ->).
  split; [reflexivity|]. split; [reflexivity|].
  exists tp, num. split; [exact Htp|]. split; [|reflexivity].
  unfold py_or, getitem in Hnum. destruct (truthy tp).
  - injection Hnum as <-. reflexivity.
  - destruct (port !! "port") as [pv|]; [|discriminate].
    injection Hnum as <-. reflexivity.
Qed.

Lemma create_ingress_object_shape_witness :
  exists obj,
    create_ingress_object "ns1" "web" "/app" anonymous_port = Normal obj /\
    V1ObjectMeta.namespace (V1Ingress.metadata obj) = "ns1" /\
    V1ObjectMeta.annotations (V1Ingress.metadata obj)
    = {[ "traefik.ingress.kubernetes.io/router.entrypoints" := "web" ]}.
Proof.
  eexists. split; [vm_compute; reflexivity|].
  split; eapply (create_ingress_object_shape "ns1" "web" "/app"
                   anonymous_port); vm_compute; reflexivity.
Defined.

(** X10. The port part of the Ingress name is the port's name when that
    is truthy, and otherwise the port number rendered as text: a port
    whose name is [None] or empty is identified by its number. *)
Theorem create_ingress_object_name (namespace service_name path : string)
    (port : port) (obj : V1Ingress.t) :
  create_ingress_object namespace service_name path port = Normal obj ->
  exists n,
    port !! "name" = Some n /\
    if truthy n
    then ingress_name obj = "auto-ingress-" +:+ service_name +:+ "-"
                            +:+ py_str n
    else exists number,
           port !! "port" = Some number /\
           ingress_name obj = "auto-ingress-" +:+ service_name +:+ "-"
                              +:+ py_str number.
Proof.
  intros H.
  apply create_ingress_object_inv in H
    as (n & tp & pn & num & Hn & Htp & Hpn & Hnum & ->).
  exists n. split; [exact Hn|].
  unfold py_or, getitem in Hpn. destruct (truthy n).
  - injection Hpn as <-. reflexivity.
  - destruct (port !! "port") as [pv|]; [|discriminate].
    cbn [rbind] in Hpn. injection Hpn as <-.
    exists pv. split; reflexivity.
Qed.

Lemma create_ingress_object_name_witness :
  exists obj,
    create_ingress_object "ns1" "web" "/app" anonymous_port = Normal obj /\
    ingress_name obj = "auto-ingress-web-80" /\
    exists n,
      anonymous_port !! "name" = Some n /\
      if truthy n
      then ingress_name obj = "auto-ingress-" +:+ "web" +:+ "-" +:+ py_str n
      else exists number,
             anonymous_port !! "port" = Some number /\
             ingress_name obj = "auto-ingress-" +:+ "web" +:+ "-"
                                +:+ py_str number.
Proof.
  eexists. split; [vm_compute; reflexivity|].
  split; [vm_compute; reflexivity|].
  apply (create_ingress_object_name "ns1" "web" "/app" anonymous_port).
  vm_compute. reflexivity.
Defined.

(** X11. [create_ingress_object] builds an object exactly when the port
    mapping has the keys ["name"] and ["targetPort"] and, unless both
    their values are truthy, the key ["port"]. *)
Theorem create_ingress_object_defined (namespace service_name path : string)
    (port : port) :
  (exists obj,
     create_ingress_object namespace service_name path port = Normal obj)
  <-> exists n tp,
        port !! "name" = Some n /\ port !! "targetPort" = Some tp /\
        ((truthy n = true /\ truthy tp = true) \/ is_Some (port !! "port")).
Proof.
  split.
  - intros [obj H].
    apply create_ingress_object_inv in H
      as (n & tp & pn & num & Hn & Htp & Hpn & Hnum & _).
    exists n, tp. split; [exact Hn|]. split; [exact Htp|].
    unfold py_or, getitem in Hpn, Hnum.
    destruct (port !! "port") as [pv|]; [right; eauto|].
    destruct (truthy n); [|discriminate].
    destruct (truthy tp); [|discriminate].
    left. split; reflexivity.
  - intros (n & tp & Hn & Htp & Hport).
    unfold create_ingress_object, py_or, getitem.
    rewrite Hn, Htp. cbn [rbind].
    destruct Hport as [[-> ->]|[pv ->]]; cbn [rbind].
    + eexists. reflexivity.
    + destruct (truthy n), (truthy tp); cbn [rbind]; eexists; reflexivity.
Qed.

(** X12. [create_ingress_object] fails only with a [KeyError] for one of
    the keys ["name"], ["port"], ["targetPort"], and that key is absent
    from the port mapping. A port with a truthy name and no
    ["targetPort"] key fails with [KeyError('targetPort')] whether or not
    it has a port number. *)
Theorem create_ingress_object_key_errors
    (namespace service_name path : string) (port : port) :
  (forall e,
     create_ingress_object namespace service_name path port = Raised e ->
     exists k, e = KeyError k /\ port !! k = None /\
               (k = "name" \/ k = "port" \/ k = "targetPort")) /\
  (forall n,
     port !! "name" = Some n -> truthy n = true ->
     port !! "targetPort" = None ->
     create_ingress_object namespace service_name path port
     = Raised (KeyError "targetPort")).
Proof.
  split.
  - intros e. unfold create_ingress_object, py_or, getitem.
    destruct (port !! "name") as [n|] eqn:Hn; cbn [rbind];
      [|intros [= <-]; exists "name"; auto].
    destruct (truthy n).
    + cbn [rbind].
      destruct (port !! "targetPort") as [tp|] eqn:Htp; cbn [rbind];
        [|intros [= <-]; exists "targetPort"; auto].
      destruct (truthy tp); cbn [rbind]; [discriminate|].
      destruct (port !! "port") as [pv|] eqn:Hpv; cbn [rbind];
        [discriminate|intros [= <-]; exists "port"; auto].
    + destruct (port !! "port") as [pv|] eqn:Hpv; cbn [rbind];
        [|intros [= <-]; exists "port"; auto].
      destruct (port !! "targetPort") as [tp|] eqn:Htp; cbn [rbind];
        [|intros [= <-]; exists "targetPort"; auto].
      destruct (truthy tp); cbn [rbind]; discriminate.
  - intros n Hn Htruthy Htp.
    unfold create_ingress_object, py_or, getitem.
    rewrite Hn. cbn [rbind]. rewrite Htruthy. cbn [rbind].
    rewrite Htp. reflexivity.
Qed.

Lemma create_ingress_object_key_errors_witness :
  no_target_port !! "name" = Some (PStr "http") /\
  no_target_port !! "targetPort" = None /\
  is_Some (no_target_port !! "port") /\
  create_ingress_object "ns1" "web" "/app" no_target_port
  = Raised (KeyError "targetPort").
Proof.
  split; [vm_compute; reflexivity|]. split; [vm_compute; reflexivity|].
  split; [eexists; vm_compute; reflexivity|].
  apply (proj2 (create_ingress_object_key_errors "ns1" "web" "/app"
                  no_target_port) (PStr "http")); vm_compute; reflexivity.
Defined.

(** ** [manage_ingress], annotation present *)

Lemma upsert_calls {S} (gw : gateway S) (meta : Meta) (namespace : string)
    (obj : V1Ingress.t) (s : S) :
  let t := trace (run gw (upsert meta namespace obj) s) in
  calls t = [create_namespaced_ingress namespace obj] \/
  calls t = [create_namespaced_ingress namespace obj;
             patch_namespaced_ingress (ingress_name obj) namespace obj].
Proof.
  cbv zeta. rewrite upsert_run. cbv zeta.
  destruct (gw _ s) as [[e|[]] s1].
  - destruct (Z.eqb (ApiException.status e) 409).
    + destruct (gw _ s1) as [[e'|[]] s2]; right; reflexivity.
    + left. reflexivity.
  - left. reflexivity.
Qed.

(** X13. With the annotation present the reconciler never lists and never
    deletes: it makes no call at all, or one create, or one create
    followed by one patch of the same object under that object's name,
    both in the namespace of the Service. An Ingress left over under
    another name is not removed by this path. *)
Theorem manage_ingress_present_calls {S} (gw : gateway S) (s : S)
    (spec : gmap string specval) (meta : Meta) (status : gmap string pyval)
    (name namespace uid : string)
    (annotations : option (gmap string string)) :
  is_Some (default ∅ annotations !! AUTO_INGRESS_ANNOTATION) ->
  let t := trace (run gw (manage_ingress spec meta status name namespace uid
                            annotations) s) in
  calls t = [] \/
  exists obj,
    calls t = [create_namespaced_ingress namespace obj] \/
    calls t = [create_namespaced_ingress namespace obj;
               patch_namespaced_ingress (ingress_name obj) namespace obj].
Proof.
  intros [path Hpath]. cbv zeta.
  rewrite (manage_ingress_present _ _ _ _ _ _ path) by exact Hpath.
  destruct (find_http_port _) as [found|e]; [|left; reflexivity].
  destruct (truthy_port found) as [port|]; [|left; reflexivity].
  destruct (create_ingress_object _ _ _ _) as [obj0|e];
    [|left; reflexivity].
  destruct (set_owner_uid obj0 uid) as [obj|e]; [|left; reflexivity].
  right. exists obj. apply upsert_calls.
Qed.

Lemma manage_ingress_present_calls_witness :
  let t := trace (run Cluster.step
                    (manage_ingress web_spec ∅ ∅ "web" "ns1" "u1"
                       web_annotations) sample_store) in
  is_Some (default ∅ web_annotations !! AUTO_INGRESS_ANNOTATION) /\
  deletions t = [] /\
  (calls t = [] \/
   exists obj,
     calls t = [create_namespaced_ingress "ns1" obj] \/
     calls t = [create_namespaced_ingress "ns1" obj;
                patch_namespaced_ingress (ingress_name obj) "ns1" obj]).
Proof.
  assert (Hann : is_Some (default ∅ web_annotations
                          !! AUTO_INGRESS_ANNOTATION)).
  { exists "/app". reflexivity. }
  split; [exact Hann|]. split; [vm_compute; reflexivity|].
  exact (manage_ingress_present_calls Cluster.step sample_store web_spec ∅ ∅
           "web" "ns1" "u1" web_annotations Hann).
Defined.

Lemma manage_ingress_absent_submissions {S} (gw : gateway S) (s : S)
    (spec : gmap string specval) (meta : Meta) (status : gmap string pyval)
    (name namespace uid : string)
    (annotations : option (gmap string string)) :
  default ∅ annotations !! AUTO_INGRESS_ANNOTATION = None ->
  submissions (trace (run gw (manage_ingress spec meta status name namespace
                                uid annotations) s)) = [].
Proof.
  intros Habsent.
  rewrite (manage_ingress_absent_run gw) by exact Habsent. cbv zeta.
  destruct (gw _ s) as [[e|ingresses] s1]; [reflexivity|].
  pose proof (delete_family_run gw ("auto-ingress-" +:+ name) namespace
                meta (fun n => "Deleted " +:+ n)
                ingresses s1) as [Hc _].
  destruct (run gw (delete_family _ _ _ _ _) s1) as [[o s2] t].
  unfold trace in *. cbn [snd] in *.
  unfold submissions. rewrite calls_called, Hc.
  cbn [omap list_omap submission_of]. apply submissions_deletes.
Qed.

(** X14. Every Ingress the reconciler submits is named under the family
    prefix of its own Service and placed in the Service's namespace, so
    the deletion pass of that Service selects it. *)
Theorem submitted_ingress_in_own_family {S} (gw : gateway S) (s : S)
    (spec : gmap string specval) (meta : Meta) (status : gmap string pyval)
    (name namespace uid : string)
    (annotations : option (gmap string string)) :
  Forall (fun obj =>
            startswith (ingress_name obj) ("auto-ingress-" +:+ name) = true /\
            V1ObjectMeta.namespace (V1Ingress.metadata obj) = namespace /\
            family name [obj] = [obj])
         (submissions
            (trace (run gw (manage_ingress spec meta status name namespace
                              uid annotations) s))).
Proof.
  destruct (default ∅ annotations !! AUTO_INGRESS_ANNOTATION)
    as [path|] eqn:Hpath.
  - rewrite (manage_ingress_present _ _ _ _ _ _ path) by exact Hpath.
    destruct (find_http_port _) as [found|e]; [|constructor].
    destruct (truthy_port found) as [port|]; [|constructor].
    destruct (create_ingress_object _ _ _ _) as [obj0|e] eqn:Hobj0;
      [|constructor].
    destruct (set_owner_uid obj0 uid) as [obj|e] eqn:Hobj; [|constructor].
    apply create_ingress_object_inv in Hobj0
      as (n & tp & pn & num & _ & _ & _ & _ & ->).
    cbn in Hobj. injection Hobj as <-.
    eapply Forall_impl; [apply upsert_submissions|].
    intros o ->.
    assert (Hfam : startswith (build_ingress_name name pn)
                     ("auto-ingress-" +:+ name) = true)
      by apply build_ingress_name_in_family.
    split; [exact Hfam|]. split; [reflexivity|].
    unfold family. rewrite filter_cons, decide_True by exact Hfam.
    reflexivity.
  - rewrite manage_ingress_absent_submissions by exact Hpath. constructor.
Qed.

Section UpsertOutcomes.
Context {S : Type} (gw : gateway S).
Variables (spec : gmap string specval) (meta : Meta)
          (status : gmap string pyval).
Variables (name namespace uid path : string).
Variable annotations : option (gmap string string).
Variables (found : option port) (port : port) (obj0 obj : V1Ingress.t).

Hypothesis Hpath :
  default ∅ annotations !! AUTO_INGRESS_ANNOTATION = Some path.
Hypothesis Hfound :
  find_http_port {| V1Service.spec := spec |} = Normal found.
Hypothesis Hport : truthy_port found = Some port.
Hypothesis Hobj0 :
  create_ingress_object namespace name path port = Normal obj0.
Hypothesis Hobj : set_owner_uid obj0 uid = Normal obj.

Local Abbreviation reconcile :=
  (manage_ingress spec meta status name namespace uid annotations).
Local Abbreviation create := (create_namespaced_ingress namespace obj).
Local Abbreviation patch :=
  (patch_namespaced_ingress (ingress_name obj) namespace obj).

Lemma reconcile_is_upsert : reconcile = upsert meta namespace obj.
Proof.
  rewrite (manage_ingress_present _ _ _ _ _ _ path) by exact Hpath.
  rewrite Hfound, Hport, Hobj0, Hobj. reflexivity.
Qed.

(** X15. When the create succeeds, the reconciler returns normally after
    that single call and posts [IngressCreated] with the message
    [Created ingress <name>]; it does not patch. *)
Theorem create_success_is_reported (s s1 : S) :
  gw create s = (inr tt, s1) ->
  run gw reconcile s
  = (Normal tt, s1,
     [ Called create None;
       Posted (OfService meta) "IngressCreated"
              ("Created ingress " +:+ ingress_name obj) ]).
Proof.
  intros Hcreate. rewrite reconcile_is_upsert, upsert_run. cbv zeta.
  rewrite Hcreate. reflexivity.
Qed.

(** X16. When the create raises with a status other than 409, the
    reconciler raises [TemporaryError] with delay 10 and the message
    [Failed to create/patch ingress: <text of the exception>]; it makes
    no further call and posts no event. *)
Theorem create_failure_is_retryable (s s1 : S) (e : ApiException.t) :
  gw create s = (inl e, s1) ->
  ApiException.status e <> 409 ->
  run gw reconcile s
  = (Raised (TemporaryError
               ("Failed to create/patch ingress: " +:+ ApiException.text e)
               10),
     s1, [Called create (Some e)]).
Proof.
  intros Hcreate Hne. rewrite reconcile_is_upsert, upsert_run. cbv zeta.
  rewrite Hcreate.
  destruct (Z.eqb_spec (ApiException.status e) 409) as [H|_];
    [contradiction|reflexivity].
Qed.

(** X17. When the create raises 409 and the patch raises too, the
    exception of the patch leaves the reconciler unchanged, as an
    [ApiException]; no event is posted. *)
Theorem patch_failure_propagates (s s1 s2 : S) (e e' : ApiException.t) :
  gw create s = (inl e, s1) ->
  ApiException.status e = 409 ->
  gw patch s1 = (inl e', s2) ->
  run gw reconcile s
  = (Raised (ApiError e'), s2,
     [Called create (Some e); Called patch (Some e')]).
Proof.
  intros Hcreate H409 Hpatch. rewrite reconcile_is_upsert, upsert_run.
  cbv zeta. rewrite Hcreate, H409. cbn [Z.eqb Pos.eqb]. rewrite Hpatch.
  reflexivity.
Qed.

End UpsertOutcomes.

Lemma create_success_is_reported_witness :
  run Cluster.step
    (manage_ingress web_spec ∅ ∅ "web" "ns1" "u1" web_annotations) []
  = (Normal tt, [("ns1", web_ingress "u1")],
     [ Called (create_namespaced_ingress "ns1" (web_ingress "u1")) None;
       Posted (OfService ∅) "IngressCreated"
              ("Created ingress " +:+ ingress_name (web_ingress "u1")) ]).
Proof.
  apply (create_success_is_reported Cluster.step web_spec ∅ ∅ "web" "ns1"
           "u1" "/app" web_annotations (Some web_port) web_port
           (web_ingress "") (web_ingress "u1"));
    vm_compute; reflexivity.
Defined.

Lemma create_failure_is_retryable_witness :
  run (Cluster.faulty create_forbidden)
    (manage_ingress web_spec ∅ ∅ "web" "ns1" "u1" web_annotations) []
  = (Raised (TemporaryError
               ("Failed to create/patch ingress: " +:+ "Forbidden") 10),
     [],
     [Called (create_namespaced_ingress "ns1" (web_ingress "u1"))
             (Some forbidden)]).
Proof.
  apply (create_failure_is_retryable (Cluster.faulty create_forbidden)
           web_spec ∅ ∅ "web" "ns1" "u1" "/app" web_annotations
           (Some web_port) web_port (web_ingress "") (web_ingress "u1")
           eq_refl eq_refl eq_refl eq_refl eq_refl [] [] forbidden eq_refl).
  vm_compute. discriminate.
Defined.

Lemma patch_failure_propagates_witness :
  let s := [("ns1", web_ingress "u1")] in
  let obj := web_ingress "u1" in
  run (Cluster.faulty patch_down)
    (manage_ingress web_spec ∅ ∅ "web" "ns1" "u1" web_annotations) s
  = (Raised (ApiError Cluster.unavailable), s,
     [ Called (create_namespaced_ingress "ns1" obj) (Some Cluster.conflict);
       Called (patch_namespaced_ingress (ingress_name obj) "ns1" obj)
              (Some Cluster.unavailable) ]).
Proof.
  apply (patch_failure_propagates (Cluster.faulty patch_down)
           web_spec ∅ ∅ "web" "ns1" "u1" "/app" web_annotations
           (Some web_port) web_port (web_ingress "") (web_ingress "u1")
           eq_refl eq_refl eq_refl eq_refl eq_refl
           [("ns1", web_ingress "u1")] [("ns1", web_ingress "u1")]
           [("ns1", web_ingress "u1")] Cluster.conflict Cluster.unavailable
           eq_refl eq_refl eq_refl).
Defined.

(** ** [manage_ingress], all outcomes *)

Lemma find_http_port_raises (service : V1Service.t) (e : exn) :
  find_http_port service = Raised e ->
  (exists k, e = KeyError k) \/ e = TypeError.
Proof.
  unfold find_http_port, getitem.
  destruct (V1Service.spec service !! "ports") as [[ports|v]|]; cbn [rbind].
  - destruct (find_http_port_loop ports) as [[q|]|e0] eqn:Hloop;
      cbn [rbind]; try discriminate.
    apply find_http_port_loop_raises in Hloop as ->.
    intros [= <-]. left. eauto.
  - destruct v as [|z|[|c s]]; try discriminate;
      intros [= <-]; right; reflexivity.
  - intros [= <-]. left. eauto.
Qed.

Lemma create_ingress_object_raises (namespace service_name path : string)
    (port : port) (e : exn) :
  create_ingress_object namespace service_name path port = Raised e ->
  exists k, e = KeyError k.
Proof.
  unfold create_ingress_object, py_or, getitem.
  destruct (port !! "name") as [n|]; cbn [rbind]; [|intros [= <-]; eauto].
  destruct (truthy n).
  - cbn [rbind].
    destruct (port !! "targetPort") as [tp|]; cbn [rbind];
      [|intros [= <-]; eauto].
    destruct (truthy tp); cbn [rbind]; [discriminate|].
    destruct (port !! "port") as [pv|]; cbn [rbind];
      [discriminate|intros [= <-]; eauto].
  - destruct (port !! "port") as [pv|]; cbn [rbind];
      [|intros [= <-]; eauto].
    destruct (port !! "targetPort") as [tp|]; cbn [rbind];
      [|intros [= <-]; eauto].
    destruct (truthy tp); cbn [rbind]; discriminate.
Qed.

Lemma manage_ingress_absent_outcome {S} (gw : gateway S) (s : S)
    (spec : gmap string specval) (meta : Meta) (status : gmap string pyval)
    (name namespace uid : string)
    (annotations : option (gmap string string)) :
  default ∅ annotations !! AUTO_INGRESS_ANNOTATION = None ->
  let x := run gw (manage_ingress spec meta status name namespace uid
                     annotations) s in
  outcome x = Normal tt \/
  exists e,
    outcome x
    = Raised (TemporaryError
                ("Failed to list/delete ingress: " +:+ ApiException.text e)
                10).
Proof.
  intros Habsent. cbv zeta.
  rewrite (manage_ingress_absent_run gw) by exact Habsent. cbv zeta.
  destruct (gw _ s) as [[e|ingresses] s1]; [right; exists e; reflexivity|].
  pose proof (delete_family_run gw ("auto-ingress-" +:+ name) namespace
                meta (fun n => "Deleted " +:+ n)
                ingresses s1) as [_ H].
  destruct (run gw (delete_family _ _ _ _ _) s1) as [[o s2] t].
  unfold outcome in *. cbn [fst] in *.
  destruct H as [(-> & _)|(e & -> & _)]; [left|right; exists e];
    reflexivity.
Qed.

(** X18. Every [TemporaryError] the reconciler raises has delay 10. An
    [ApiException] leaves the reconciler only from a patch, which is then
    its last call: the [ApiException] of a list, delete or create call
    never leaves it unwrapped. *)
Theorem manage_ingress_outcomes {S} (gw : gateway S) (s : S)
    (spec : gmap string specval) (meta : Meta) (status : gmap string pyval)
    (name namespace uid : string)
    (annotations : option (gmap string string)) :
  let x := run gw (manage_ingress spec meta status name namespace uid
                     annotations) s in
  (forall msg delay,
     outcome x = Raised (TemporaryError msg delay) -> delay = 10) /\
  (forall e,
     outcome x = Raised (ApiError e) ->
     exists n body,
       last (trace x)
       = Some (Called (patch_namespaced_ingress n namespace body) (Some e))).
Proof.
  cbv zeta.
  destruct (default ∅ annotations !! AUTO_INGRESS_ANNOTATION)
    as [path|] eqn:Hpath.
  - rewrite (manage_ingress_present _ _ _ _ _ _ path) by exact Hpath.
    destruct (find_http_port _) as [found|e0] eqn:Hfound.
    2:{ apply find_http_port_raises in Hfound as [[k ->]| ->];
          split; intros; discriminate. }
    destruct (truthy_port found) as [port|].
    2:{ split; [intros msg delay [= _ <-]; reflexivity|discriminate]. }
    destruct (create_ingress_object _ _ _ _) as [obj0|e0] eqn:Hobj0.
    2:{ apply create_ingress_object_raises in Hobj0 as [k ->].
        split; intros; discriminate. }
    pose proof (create_ingress_object_owner _ _ _ _ _ Hobj0) as Howner.
    unfold set_owner_uid. rewrite Howner.
    rewrite upsert_run. cbv zeta.
    destruct (gw _ s) as [[e0|[]] s1].
    + destruct (Z.eqb (ApiException.status e0) 409).
      * destruct (gw _ s1) as [[e'|[]] s2].
        -- split; [discriminate|]. intros e [= <-].
           do 2 eexists. reflexivity.
        -- split; discriminate.
      * split; [intros msg delay [= _ <-]; reflexivity|discriminate].
    + split; discriminate.
  - destruct (manage_ingress_absent_outcome gw s spec meta status name
                namespace uid annotations Hpath) as [H|[e0 H]];
      rewrite H; split; try discriminate.
    intros msg delay [= _ <-]. reflexivity.
Qed.

(** ** The deletion pass, call by call *)

Lemma failed_calls_app (t1 t2 : list observed) :
  failed_calls (t1 ++ t2)%list = (failed_calls t1 ++ failed_calls t2)%list.
Proof. apply omap_app. Qed.

Section DeletionTrace.
Context {S : Type} (gw : gateway S).
Variables (prefix namespace : string) (meta : Meta).
Variable message : string -> string.

Local Abbreviation pass :=
  (delete_family prefix namespace (fun _ => OfService meta) message).

Lemma delete_family_events (ingresses : list V1Ingress.t) (s : S) :
  let t := trace (run gw (pass ingresses) s) in
  events t
  = map (fun k => ("IngressDeleted", message k.1)) (successful_deletions t).
Proof.
  revert s. induction ingresses as [|ing rest IH]; intros s; [reflexivity|].
  cbv zeta. rewrite delete_family_cons.
  destruct (startswith (ingress_name ing) prefix); [|apply IH].
  cbv zeta. destruct (gw _ s) as [[e|u] s1]; [reflexivity|].
  specialize (IH s1). cbv zeta in IH.
  destruct (run gw _ s1) as [[o s2] t]. unfold trace in *. cbn [snd] in *.
  change (("IngressDeleted", message (ingress_name ing)) :: events t
          = ("IngressDeleted", message (ingress_name ing))
            :: map (fun k => ("IngressDeleted", message k.1))
                   (successful_deletions t)).
  rewrite IH. reflexivity.
Qed.

Lemma delete_family_stops (ingresses : list V1Ingress.t) (s : S) :
  let x := run gw (pass ingresses) s in
  (outcome x = Normal tt /\ failed_calls (trace x) = []) \/
  (exists t0 n e,
     trace x
     = (t0 ++ [Called (delete_namespaced_ingress n namespace) (Some e)])%list
     /\ failed_calls t0 = [] /\ outcome x = Raised (ApiError e)).
Proof.
  revert s. induction ingresses as [|ing rest IH]; intros s.
  - left. split; reflexivity.
  - cbv zeta. rewrite delete_family_cons.
    destruct (startswith (ingress_name ing) prefix); [|apply IH].
    cbv zeta. destruct (gw _ s) as [[e|u] s1].
    + right. exists [], (ingress_name ing), e. repeat split; reflexivity.
    + specialize (IH s1). cbv zeta in IH.
      destruct (run gw _ s1) as [[o s2] t].
      unfold outcome, trace in *. cbn [fst snd] in *.
      destruct IH as [[Ho Hf]|(t0 & n & e & -> & Hf & Ho)].
      * left. split; [exact Ho|exact Hf].
      * right.
        exists (Called (delete_namespaced_ingress (ingress_name ing)
                          namespace) None
                :: Posted (OfService meta) "IngressDeleted"
                     (message (ingress_name ing)) :: t0), n, e.
        repeat split; [exact Hf|exact Ho].
Qed.

Lemma delete_family_first_call (ingresses : list V1Ingress.t) (s : S) :
  take 1 (calls (trace (run gw (pass ingresses) s)))
  = match filter (fun ing => startswith (ingress_name ing) prefix = true)
                 ingresses with
    | [] => []
    | ing :: _ => [delete_namespaced_ingress (ingress_name ing) namespace]
    end.
Proof.
  revert s. induction ingresses as [|ing rest IH]; intros s; [reflexivity|].
  rewrite delete_family_cons, filter_cons.
  destruct (startswith (ingress_name ing) prefix) eqn:Hp.
  - rewrite decide_True by reflexivity. cbv zeta.
    destruct (gw _ s) as [[e|u] s1]; [reflexivity|].
    destruct (run gw _ s1) as [[o s2] t]. reflexivity.
  - rewrite decide_False by discriminate. apply IH.
Qed.

End DeletionTrace.

(** X19. With the annotation absent the reconciler reads neither the spec
    nor the uid nor the status of the Service: a Service with a malformed
    port list is cleaned up like any other. No [ApiException] leaves this
    pass: when a list or delete call raises one, the pass raises
    [TemporaryError] with delay 10 carrying the text of that exception. *)
Theorem manage_ingress_absent_ignores_spec {S} (gw : gateway S) (s : S)
    (spec spec' : gmap string specval) (meta : Meta)
    (status status' : gmap string pyval)
    (name namespace uid uid' : string)
    (annotations : option (gmap string string)) :
  default ∅ annotations !! AUTO_INGRESS_ANNOTATION = None ->
  let x := run gw (manage_ingress spec meta status name namespace uid
                     annotations) s in
  x = run gw (manage_ingress spec' meta status' name namespace uid'
                annotations) s /\
  (forall e, outcome x <> Raised (ApiError e)) /\
  (forall c e,
     (c, e) ∈ failed_calls (trace x) ->
     outcome x
     = Raised (TemporaryError
                 ("Failed to list/delete ingress: " +:+ ApiException.text e)
                 10)).
Proof.
  intros Habsent. cbv zeta. split.
  { rewrite !(manage_ingress_absent_run gw) by exact Habsent. reflexivity. }
  rewrite (manage_ingress_absent_run gw) by exact Habsent. cbv zeta.
  destruct (gw _ s) as [[e0|ingresses] s1].
  - split; [discriminate|].
    intros c e H. apply list_elem_of_singleton in H. injection H as _ ->.
    reflexivity.
  - pose proof (delete_family_stops gw ("auto-ingress-" +:+ name) namespace
                  meta (fun n => "Deleted " +:+ n) ingresses s1) as H.
    cbv zeta in H.
    destruct (run gw (delete_family _ _ _ _ _) s1) as [[o s2] t].
    unfold outcome, trace in *. cbn [fst snd] in *.
    destruct H as [[-> Hf]|(t0 & n & e1 & -> & Hf & ->)].
    + split; [discriminate|].
      intros c e H.
      change (failed_calls (Called (list_namespaced_ingress namespace) None
                            :: t)) with (failed_calls t) in H.
      rewrite Hf in H. apply elem_of_nil in H. destruct H.
    + split; [discriminate|].
      intros c e H.
      change ((c, e) ∈ failed_calls
                (t0 ++ [Called (delete_namespaced_ingress n namespace)
                          (Some e1)])) in H.
      rewrite failed_calls_app, Hf in H.
      apply list_elem_of_singleton in H. injection H as _ ->.
      reflexivity.
Qed.

Lemma manage_ingress_absent_ignores_spec_witness :
  let gw := Cluster.faulty list_down in
  let x := run gw
             (manage_ingress (V1Service.spec unnamed_service) ∅ ∅ "web" "ns1"
                "u1" None) sample_store in
  (list_namespaced_ingress "ns1", Cluster.unavailable)
    ∈ failed_calls (trace x) /\
  x = run gw (manage_ingress web_spec ∅ ∅ "web" "ns1" "u2" None)
        sample_store /\
  outcome x
  = Raised (TemporaryError
              ("Failed to list/delete ingress: " +:+ "Service Unavailable")
              10).
Proof.
  assert (Hin :
    (list_namespaced_ingress "ns1", Cluster.unavailable)
      ∈ failed_calls (trace
          (run (Cluster.faulty list_down)
             (manage_ingress (V1Service.spec unnamed_service) ∅ ∅ "web"
                "ns1" "u1" None) sample_store))).
  { vm_compute. apply list_elem_of_here. }
  destruct (manage_ingress_absent_ignores_spec (Cluster.faulty list_down)
              sample_store (V1Service.spec unnamed_service) web_spec ∅ ∅ ∅
              "web" "ns1" "u1" "u2" None eq_refl) as (Hsame & _ & Hwrap).
  split; [exact Hin|]. split; [exact Hsame|].
  exact (Hwrap _ _ Hin).
Defined.

(** X20. In the reconciler's deletion pass every delete that succeeds is
    reported by one [IngressDeleted] event with the message
    [Deleted <name>], in order, and nothing else is reported; a delete
    that raises is not reported. The cleanup handler never posts an
    event. *)
Theorem deletions_are_reported {S} (gw : gateway S) (s : S)
    (spec : gmap string specval) (meta : Meta) (status : gmap string pyval)
    (name namespace uid : string)
    (annotations : option (gmap string string)) :
  default ∅ annotations !! AUTO_INGRESS_ANNOTATION = None ->
  let tm := trace (run gw (manage_ingress spec meta status name namespace
                             uid annotations) s) in
  let tc := trace (run gw (cleanup_ingress name namespace) s) in
  events tm
  = map (fun k => ("IngressDeleted", "Deleted " +:+ k.1))
        (successful_deletions tm) /\
  events tc = [].
Proof.
  intros Habsent. cbv zeta. split.
  - rewrite (manage_ingress_absent_run gw) by exact Habsent. cbv zeta.
    destruct (gw _ s) as [[e|ingresses] s1]; [reflexivity|].
    pose proof (delete_family_events gw ("auto-ingress-" +:+ name) namespace
                  meta (fun n => "Deleted " +:+ n) ingresses s1) as H.
    cbv zeta in H.
    destruct (run gw (delete_family _ _ _ _ _) s1) as [[o s2] t].
    exact H.
  - rewrite (cleanup_ingress_run gw). cbv zeta.
    destruct (gw _ s) as [[e|ingresses] s1]; [reflexivity|].
    destruct (family name ingresses) as [|ing rest]; [reflexivity|].
    cbv zeta. destruct (gw _ s1) as [[e|u] s2]; reflexivity.
Qed.

Lemma deletions_are_reported_witness :
  let tm := trace (run Cluster.step
                     (manage_ingress web_spec ∅ ∅ "web" "ns1" "u1" None)
                     two_member_store) in
  let tc := trace (run Cluster.step (cleanup_ingress "web" "ns1")
                     two_member_store) in
  successful_deletions tm
  = [ ("auto-ingress-web-http", "ns1");
      ("auto-ingress-web-metrics", "ns1") ] /\
  successful_deletions tc = [("auto-ingress-web-http", "ns1")] /\
  events tm
  = map (fun k => ("IngressDeleted", "Deleted " +:+ k.1))
        (successful_deletions tm) /\
  events tc = [].
Proof.
  split; [vm_compute; reflexivity|]. split; [vm_compute; reflexivity|].
  exact (deletions_are_reported Cluster.step two_member_store web_spec ∅ ∅
           "web" "ns1" "u1" None eq_refl).
Defined.

(** X21. On the same cluster state the cleanup handler makes the first
    two API calls of the reconciler's deletion pass, the list and the
    first delete, and no call after them. *)
Theorem cleanup_makes_first_two_calls {S} (gw : gateway S) (s : S)
    (spec : gmap string specval) (meta : Meta) (status : gmap string pyval)
    (name namespace uid : string)
    (annotations : option (gmap string string)) :
  default ∅ annotations !! AUTO_INGRESS_ANNOTATION = None ->
  let xm := run gw (manage_ingress spec meta status name namespace uid
                      annotations) s in
  let xc := run gw (cleanup_ingress name namespace) s in
  calls (trace xc) = take 2 (calls (trace xm)).
Proof.
  intros Habsent. cbv zeta.
  rewrite (manage_ingress_absent_run gw) by exact Habsent.
  rewrite (cleanup_ingress_run gw). cbv zeta.
  destruct (gw _ s) as [[e|ingresses] s1]; [reflexivity|].
  pose proof (delete_family_first_call gw ("auto-ingress-" +:+ name)
                namespace meta (fun n => "Deleted " +:+ n) ingresses s1)
    as H.
  change (filter _ ingresses) with (family name ingresses) in H.
  destruct (run gw (delete_family _ _ _ _ _) s1) as [[o s2] t].
  unfold trace in *. cbn [snd] in *.
  rewrite calls_called.
  change (take 2 (list_namespaced_ingress namespace :: calls t))
    with (list_namespaced_ingress namespace :: take 1 (calls t)).
  rewrite H.
  destruct (family name ingresses) as [|ing rest]; [reflexivity|].
  cbv zeta. destruct (gw _ s1) as [[e|u] s3]; reflexivity.
Qed.

Lemma cleanup_makes_first_two_calls_witness :
  let xm := run Cluster.step
              (manage_ingress web_spec ∅ ∅ "web" "ns1" "u1" None)
              two_member_store in
  let xc := run Cluster.step (cleanup_ingress "web" "ns1") two_member_store
  in
  calls (trace xm)
  = [ list_namespaced_ingress "ns1";
      delete_namespaced_ingress "auto-ingress-web-http" "ns1";
      delete_namespaced_ingress "auto-ingress-web-metrics" "ns1" ] /\
  calls (trace xc) = take 2 (calls (trace xm)).
Proof.
  split; [vm_compute; reflexivity|].
  exact (cleanup_makes_first_two_calls Cluster.step two_member_store
           web_spec ∅ ∅ "web" "ns1" "u1" None eq_refl).
Defined.

(** X22. A deletion pass stops at the first call that raises an
    [ApiException]: that call is the last thing the pass does and the
    pass does not return normally, so the family members listed after a
    failed delete are left in place. *)
Theorem deletion_pass_stops_at_failure {S} (gw : gateway S) (s : S)
    (spec : gmap string specval) (meta : Meta) (status : gmap string pyval)
    (name namespace uid : string)
    (annotations : option (gmap string string)) :
  default ∅ annotations !! AUTO_INGRESS_ANNOTATION = None ->
  forall x,
    x = run gw (manage_ingress spec meta status name namespace uid
                  annotations) s \/
    x = run gw (cleanup_ingress name namespace) s ->
    forall c e,
      (c, e) ∈ failed_calls (trace x) ->
      outcome x <> Normal tt /\
      exists t0,
        trace x = (t0 ++ [Called c (Some e)])%list /\ failed_calls t0 = [].
Proof.
  intros Habsent x [-> | ->] c e.
  - rewrite (manage_ingress_absent_run gw) by exact Habsent. cbv zeta.
    destruct (gw _ s) as [[e0|ingresses] s1].
    + intros H. apply list_elem_of_singleton in H. injection H as -> ->.
      split; [discriminate|]. exists []. split; reflexivity.
    + pose proof (delete_family_stops gw ("auto-ingress-" +:+ name)
                    namespace meta (fun n => "Deleted " +:+ n) ingresses s1)
        as H.
      cbv zeta in H.
      destruct (run gw (delete_family _ _ _ _ _) s1) as [[o s2] t].
      unfold outcome, trace in *. cbn [fst snd] in *.
      destruct H as [[-> Hf]|(t0 & n & e1 & -> & Hf & ->)].
      * intros H.
        change (failed_calls (Called (list_namespaced_ingress namespace)
                                None :: t)) with (failed_calls t) in H.
        rewrite Hf in H. apply elem_of_nil in H. destruct H.
      * intros H.
        change ((c, e) ∈ failed_calls
                  (t0 ++ [Called (delete_namespaced_ingress n namespace)
                            (Some e1)])) in H.
        rewrite failed_calls_app, Hf in H.
        apply list_elem_of_singleton in H. injection H as -> ->.
        split; [discriminate|].
        exists (Called (list_namespaced_ingress namespace) None :: t0).
        split; [reflexivity|exact Hf].
  - rewrite (cleanup_ingress_run gw). cbv zeta.
    destruct (gw _ s) as [[e0|ingresses] s1].
    + intros H. apply list_elem_of_singleton in H. injection H as -> ->.
      split; [discriminate|]. eexists [_]. split; reflexivity.
    + destruct (family name ingresses) as [|ing rest].
      * intros H. apply elem_of_nil in H. destruct H.
      * cbv zeta. destruct (gw _ s1) as [[e1|u] s2].
        -- intros H. apply list_elem_of_singleton in H.
           injection H as -> ->.
           split; [discriminate|]. eexists [_; _]. split; reflexivity.
        -- intros H. apply elem_of_nil in H. destruct H.
Qed.

Lemma deletion_pass_stops_at_failure_witness :
  let x := run (Cluster.faulty delete_down)
             (manage_ingress web_spec ∅ ∅ "web" "ns1" "u1" None)
             two_member_store in
  let c := delete_namespaced_ingress "auto-ingress-web-http" "ns1" in
  (c, Cluster.unavailable) ∈ failed_calls (trace x) /\
  final x = two_member_store /\
  outcome x <> Normal tt /\
  exists t0,
    trace x = (t0 ++ [Called c (Some Cluster.unavailable)])%list /\
    failed_calls t0 = [].
Proof.
  assert (Hin :
    (delete_namespaced_ingress "auto-ingress-web-http" "ns1",
     Cluster.unavailable)
      ∈ failed_calls (trace
          (run (Cluster.faulty delete_down)
             (manage_ingress web_spec ∅ ∅ "web" "ns1" "u1" None)
             two_member_store))).
  { vm_compute. apply list_elem_of_here. }
  split; [exact Hin|]. split; [vm_compute; reflexivity|].
  exact (deletion_pass_stops_at_failure (Cluster.faulty delete_down)
           two_member_store web_spec ∅ ∅ "web" "ns1" "u1" None eq_refl
           _ (or_introl eq_refl) _ _ Hin).
Defined.

(** ** [cleanup_ingress], all it does *)

(** X23. The cleanup handler prints its line first, whatever happens
    next, and makes at most one delete call. When the list call returns,
    the handler returns normally exactly when no listed name is in the
    family. After a delete that succeeds it raises [AttributeError], and
    when a call raises an [ApiException] it raises that exception
    unchanged. *)
Theorem cleanup_ingress_outcomes {S} (gw : gateway S) (s : S)
    (name namespace : string) :
  let x := run gw (cleanup_ingress name namespace) s in
  head (trace x)
  = Some (Printed ("Cleaning up ingress for service " +:+ name
                   +:+ " in namespace " +:+ namespace
                   +:+ "!!!!!!!!!!!!!!!!!!")) /\
  (length (deletions (trace x)) <= 1)%nat /\
  (forall ingresses s1,
     gw (list_namespaced_ingress namespace) s = (inr ingresses, s1) ->
     (outcome x = Normal tt <-> family name ingresses = [])) /\
  (successful_deletions (trace x) <> [] ->
   outcome x = Raised AttributeError) /\
  (forall c e,
     (c, e) ∈ failed_calls (trace x) -> outcome x = Raised (ApiError e)).
Proof.
  cbv zeta. rewrite (cleanup_ingress_run gw). cbv zeta.
  destruct (gw _ s) as [[e0|ingresses] s1].
  - split; [reflexivity|]. split; [cbn; lia|].
    split; [intros ? ? [=]|].
    split; [intros H; contradiction H; reflexivity|].
    intros c e H. apply list_elem_of_singleton in H. injection H as _ ->.
    reflexivity.
  - destruct (family name ingresses) as [|ing rest] eqn:Hfam.
    + split; [reflexivity|]. split; [cbn; lia|].
      split; [intros ? ? [= <- _]; rewrite Hfam; split; reflexivity|].
      split; [intros H; contradiction H; reflexivity|].
      intros c e H. apply elem_of_nil in H. destruct H.
    + cbv zeta. destruct (gw _ s1) as [[e1|u] s2].
      * split; [reflexivity|]. split; [cbn; lia|].
        split; [intros ? ? [= <- _]; rewrite Hfam; split; discriminate|].
        split; [intros H; contradiction H; reflexivity|].
        intros c e H. apply list_elem_of_singleton in H.
        injection H as _ ->. reflexivity.
      * split; [reflexivity|]. split; [cbn; lia|].
        split; [intros ? ? [= <- _]; rewrite Hfam; split; discriminate|].
        split; [reflexivity|].
        intros c e H. apply elem_of_nil in H. destruct H.
Qed.

Lemma cleanup_ingress_outcomes_witness :
  let x := run Cluster.step (cleanup_ingress "web" "ns1") two_member_store
  in
  successful_deletions (trace x) = [("auto-ingress-web-http", "ns1")] /\
  outcome x = Raised AttributeError.
Proof.
  assert (Hdel :
    successful_deletions
      (trace (run Cluster.step (cleanup_ingress "web" "ns1")
                two_member_store))
    = [("auto-ingress-web-http", "ns1")]) by (vm_compute; reflexivity).
  split; [exact Hdel|].
  apply (cleanup_ingress_outcomes Cluster.step two_member_store "web"
           "ns1").
  rewrite Hdel. discriminate.
Defined.
